(** * College notice monitor: a shallow embedding of [index.js] and [database.js]

    The development follows the source file by file: JavaScript strings and the
    regular expressions of [ContentFilterStrategy], the three filter
    strategies, the in-order [Map] used by [fetchNotices], the Mongo collection
    behind [MongoPersistenceStrategy], and [NoticeMonitor.run] written in a
    small monad of world-passing computations that can throw or leave the
    process. *)

From Stdlib Require Import ZArith NArith List String Ascii Bool Lia.
From stdpp Require Import base decidable countable gmap list.

Local Open Scope Z_scope.

(** ** JavaScript strings *)

(** A JavaScript string is a sequence of UTF-16 code units. *)
Abbreviation jsstring := (list N).

Definition lit (s : string) : jsstring :=
  List.map N_of_ascii (list_ascii_of_string s).

(** ** Regular expressions (flag [i], no flag [u], [g], [y] or [s]) *)

Module RegExp.

Inductive regex : Type :=
| Chr (c : N)               (* a pattern character *)
| Dot                       (* .   *)
| Space                     (* \s  *)
| WordB                     (* \b  *)
| Eps
| Cat (r1 r2 : regex)
| Alt (r1 r2 : regex)       (* r1|r2 *)
| Star (r : regex)          (* r* and r*? : the same set of matches *)
| Opt (r : regex).          (* r?  *)

(** [Canonicalize] of the specification under [/i] without [/u]: the code
    unit is upper-cased, except that a code unit of 128 or more never maps
    below 128.  Every pattern character of this program is ASCII, so only the
    ASCII part of the mapping decides a comparison. *)
Definition canonicalize (c : N) : N :=
  if ((97 <=? c) && (c <=? 122))%N then (c - 32)%N else c.

Definition is_word (c : N) : bool :=
  (((48 <=? c) && (c <=? 57)) || ((65 <=? c) && (c <=? 90))
   || ((97 <=? c) && (c <=? 122)) || (c =? 95))%N.

Definition is_word_at (o : option N) : bool :=
  match o with Some c => is_word c | None => false end.

Definition is_line_terminator (c : N) : bool :=
  ((c =? 10) || (c =? 13) || (c =? 8232) || (c =? 8233))%N.

(** WhiteSpace and LineTerminator code points. *)
Definition is_space (c : N) : bool :=
  (((9 <=? c) && (c <=? 13)) || (c =? 32) || (c =? 160) || (c =? 5760)
   || ((8192 <=? c) && (c <=? 8202)) || (c =? 8232) || (c =? 8233)
   || (c =? 8239) || (c =? 8287) || (c =? 12288) || (c =? 65279))%N.

(** Backtracking matcher in continuation-passing style.  [prev] is the code
    unit before the current position (for [\b]); [k] is what remains to be
    matched.  An iteration of a star that consumes nothing is rejected, as in
    the specification's RepeatMatcher, so [length s] iterations are enough. *)
Fixpoint m (r : regex) (prev : option N) (s : jsstring)
    (k : option N -> jsstring -> bool) {struct r} : bool :=
  match r with
  | Chr c =>
      match s with
      | x :: s' => if (canonicalize x =? canonicalize c)%N then k (Some x) s' else false
      | [] => false
      end
  | Dot =>
      match s with
      | x :: s' => if is_line_terminator x then false else k (Some x) s'
      | [] => false
      end
  | Space =>
      match s with
      | x :: s' => if is_space x then k (Some x) s' else false
      | [] => false
      end
  | WordB => if xorb (is_word_at prev) (is_word_at (head s)) then k prev s else false
  | Eps => k prev s
  | Cat r1 r2 => m r1 prev s (fun p t => m r2 p t k)
  | Alt r1 r2 => if m r1 prev s k then true else m r2 prev s k
  | Opt r1 => if m r1 prev s k then true else k prev s
  | Star r1 =>
      (fix loop (fuel : nat) (p : option N) (t : jsstring) {struct fuel} : bool :=
         match fuel with
         | O => k p t
         | S fuel' =>
             if m r1 p t (fun p' t' =>
                            if (length t' <? length t)%nat then loop fuel' p' t' else false)
             then true else k p t
         end) (length s) prev s
  end.

(** The loop of a star, as [m] runs it. *)
Definition star_loop (r1 : regex) (k : option N -> jsstring -> bool) :=
  fix loop (fuel : nat) (p : option N) (t : jsstring) {struct fuel} : bool :=
    match fuel with
    | O => k p t
    | S fuel' =>
        if m r1 p t (fun p' t' =>
                       if (length t' <? length t)%nat then loop fuel' p' t' else false)
        then true else k p t
    end.

(** [regex.test(s)]: is there a match starting at some index of [s]? *)
Fixpoint search (r : regex) (prev : option N) (s : jsstring) : bool :=
  if m r prev s (fun _ _ => true) then true
  else match s with
       | [] => false
       | x :: s' => search r (Some x) s'
       end.

Definition test (r : regex) (s : jsstring) : bool := search r None s.

(** What the matcher decides, as a relation: [matches r p s p' s'] says that
    [r] matches a prefix of [s], the text before [s] ending in [p], and leaves
    [s'], the text before [s'] ending in [p']. *)
Inductive matches : regex -> option N -> jsstring -> option N -> jsstring -> Prop :=
| matches_Chr c p x s :
    canonicalize x = canonicalize c -> matches (Chr c) p (x :: s) (Some x) s
| matches_Dot p x s :
    is_line_terminator x = false -> matches Dot p (x :: s) (Some x) s
| matches_Space p x s :
    is_space x = true -> matches Space p (x :: s) (Some x) s
| matches_WordB p s :
    xorb (is_word_at p) (is_word_at (head s)) = true -> matches WordB p s p s
| matches_Eps p s : matches Eps p s p s
| matches_Cat r1 r2 p s p1 s1 p2 s2 :
    matches r1 p s p1 s1 -> matches r2 p1 s1 p2 s2 -> matches (Cat r1 r2) p s p2 s2
| matches_Alt_l r1 r2 p s p' s' : matches r1 p s p' s' -> matches (Alt r1 r2) p s p' s'
| matches_Alt_r r1 r2 p s p' s' : matches r2 p s p' s' -> matches (Alt r1 r2) p s p' s'
| matches_Opt_some r p s p' s' : matches r p s p' s' -> matches (Opt r) p s p' s'
| matches_Opt_none r p s : matches (Opt r) p s p s
| matches_Star_nil r p s : matches (Star r) p s p s
| matches_Star_step r p s p1 s1 p2 s2 :
    matches r p s p1 s1 -> (length s1 < length s)%nat ->
    matches (Star r) p1 s1 p2 s2 -> matches (Star r) p s p2 s2.

(** The code unit before the position reached after [s1]. *)
Definition prev_after (p : option N) (s1 : jsstring) : option N :=
  List.fold_left (fun _ x => Some x) s1 p.

Definition word (w : string) : regex :=
  List.fold_right (fun c r => Cat (Chr c) r) Eps (lit w).

Definition seq (rs : list regex) : regex := List.fold_right Cat Eps rs.

Fixpoint alt (rs : list regex) : regex :=
  match rs with
  | [] => Eps
  | [r] => r
  | r :: rs' => Alt r (alt rs')
  end.

End RegExp.
Import RegExp.

(** ** Notices *)

(** An [id] arrives from JSON as a number or as a string. *)
Inductive jsid : Type :=
| IdNum (n : Z)
| IdStr (s : jsstring).

Global Instance jsid_eq_dec : EqDecision jsid.
Proof. solve_decision. Defined.

Record Notice : Type := mkNotice {
  id : jsid;
  title : jsstring;
  date : jsstring;
  content : jsstring
}.

Global Instance Notice_eq_dec : EqDecision Notice.
Proof. solve_decision. Defined.

(** ** [ContentFilterStrategy] *)

Module ContentFilterStrategy.

(** [/(6th|VI\b|Sixth)/] *)
Definition sixth : regex :=
  alt [word "6th"; Cat (word "VI") WordB; word "Sixth"].

Definition CRITICAL_PATTERNS : list regex :=
  [ (* /BTU.*Exam.*Form.*VI\s*Sem/i *)
    seq [word "BTU"; Star Dot; word "Exam"; Star Dot; word "Form"; Star Dot;
         word "VI"; Star Space; word "Sem"];
    (* /B\.?Tech.*(6th|VI\b|Sixth)\s*Sem/i *)
    seq [word "B"; Opt (Chr 46); word "Tech"; Star Dot; sixth; Star Space; word "Sem"];
    (* /Even\s*Sem.*Exam/i *)
    seq [word "Even"; Star Space; word "Sem"; Star Dot; word "Exam"];
    (* /(Exam|Form|Fee).*?(6th|VI\b|Sixth)/i *)
    seq [alt [word "Exam"; word "Form"; word "Fee"]; Star Dot; sixth] ].

(** [/Exam.*Form/i] *)
Definition GENERIC_EXAM_FORM : regex := seq [word "Exam"; Star Dot; word "Form"].

(** [/(1st|3rd|5th|7th|I\s*Sem|III\s*Sem|V\s*Sem|VII\s*Sem)/i] *)
Definition EXCLUDE_SEMESTERS : regex :=
  alt [word "1st"; word "3rd"; word "5th"; word "7th";
       seq [word "I"; Star Space; word "Sem"];
       seq [word "III"; Star Space; word "Sem"];
       seq [word "V"; Star Space; word "Sem"];
       seq [word "VII"; Star Space; word "Sem"]].

Definition explicitMatch (t : jsstring) : bool :=
  List.existsb (fun regex => test regex t) CRITICAL_PATTERNS.

Definition isGenericUrgent (t : jsstring) : bool :=
  test GENERIC_EXAM_FORM t && negb (test EXCLUDE_SEMESTERS t).

Definition check (notice : Notice) : bool :=
  let title := title notice in
  if explicitMatch title || isGenericUrgent title then true else false.

End ContentFilterStrategy.

(** The filter of the one-shot script (its step 3), on the same patterns. *)
Definition checkNews_relevant (item : Notice) : bool :=
  let title := title item in
  let explicitMatch :=
    List.existsb (fun regex => test regex title) ContentFilterStrategy.CRITICAL_PATTERNS in
  let isGenericUrgent :=
    test ContentFilterStrategy.GENERIC_EXAM_FORM title
    && negb (test ContentFilterStrategy.EXCLUDE_SEMESTERS title) in
  if explicitMatch || isGenericUrgent then true else false.

(** ** Configuration *)

(** [parseInt(s, 10)]: leading white space is skipped, then an optional sign,
    then the longest prefix of decimal digits; [None] is NaN.  The value kept
    here is the integer read; [parseInt] returns the double nearest to it,
    which is the same number up to [2^53] in absolute value.  An age limit
    beyond that puts the cutoff outside the range of [Date] either way. *)
Fixpoint skip_space (s : jsstring) : jsstring :=
  match s with
  | c :: s' => if RegExp.is_space c then skip_space s' else s
  | [] => []
  end.

Definition is_digit (c : N) : bool := ((48 <=? c) && (c <=? 57))%N.

Fixpoint digits (acc : Z) (s : jsstring) : Z :=
  match s with
  | c :: s' => if is_digit c then digits (10 * acc + (Z.of_N c - 48)) s' else acc
  | [] => acc
  end.

Definition parseInt10 (s : jsstring) : option Z :=
  let s := skip_space s in
  let '(sign, s) :=
    match s with
    | 45%N :: s' => (-1, s')
    | 43%N :: s' => (1, s')
    | _ => (1, s)
    end in
  match s with
  | c :: _ => if is_digit c then Some (sign * digits 0 s) else None
  | [] => None
  end.

(** The part of [process.env] that the pipeline reads; the endpoint URLs, the
    API key and the addresses only reach the HTTP and e-mail clients. *)
Record ProcessEnv : Type := {
  env_MONGO_URI : option jsstring;
  env_TEST_MODE : option jsstring;
  env_SEED_MODE : option jsstring;
  env_NOTICE_AGE_LIMIT_HOURS : option jsstring
}.

Record Config : Type := {
  MONGO_URI : option jsstring;
  TEST_MODE : bool;
  SEED_MODE : bool;
  NOTICE_AGE_LIMIT_HOURS : option Z       (* [None] is NaN *)
}.

(** [x || d] on an environment variable: unset and empty are falsy. *)
Definition or_default (x : option jsstring) (d : jsstring) : jsstring :=
  match x with
  | Some (c :: s) => c :: s
  | _ => d
  end.

Definition is_true_string (x : option jsstring) : bool :=
  match x with
  | Some s => bool_decide (s = lit "true")
  | None => false
  end.

Definition loadConfig (e : ProcessEnv) : Config := {|
  MONGO_URI := env_MONGO_URI e;
  TEST_MODE := is_true_string (env_TEST_MODE e);
  SEED_MODE := is_true_string (env_SEED_MODE e);
  NOTICE_AGE_LIMIT_HOURS := parseInt10 (or_default (env_NOTICE_AGE_LIMIT_HOURS e) (lit "24"))
|}.

(** ** Dates *)

(** A [Date] holds a time value in milliseconds, or NaN ([None]).  The numbers
    involved are integers; [TimeClip] rejects what lies outside the range of
    [Date], which is inside the range where doubles are exact. *)
Definition TimeClip (t : Z) : option Z :=
  if Z.abs t <=? 8640000000000000 then Some t else None.

(** [a >= b] on two [Date]s (compared through their time values). *)
Definition Date_ge (a b : option Z) : bool :=
  match a, b with
  | Some x, Some y => y <=? x
  | _, _ => false
  end.

(** [a - b] on two [Date]s, as [sort] reads the comparator: NaN counts as [+0]. *)
Definition Date_minus (a b : option Z) : Z :=
  match a, b with
  | Some x, Some y => x - y
  | _, _ => 0
  end.

(** ** [TimeFilterStrategy] *)

Module TimeFilterStrategy.

Record t : Type := { cutoffDate : option Z }.

(** The constructor, run when the clock ([Date.now()]) shows [now]. *)
Definition new (config : Config) (now : Z) : t :=
  let hours := NOTICE_AGE_LIMIT_HOURS config in
  {| cutoffDate :=
       match hours with
       | Some hours => TimeClip (now - hours * 60 * 60 * 1000)
       | None => None
       end |}.

Definition check (Date_parse : jsstring -> option Z) (self : t) (notice : Notice) : bool :=
  Date_ge (Date_parse (date notice)) (cutoffDate self).

End TimeFilterStrategy.

(** ** [fetchNotices]: the merge through a [Map] *)

(** A [Map] keeps its keys in the order of their first insertion; [set] on a
    key that is present replaces the value where it stands. *)
Section JsMap.
Context {K V : Type} `{EqDecision K}.

Fixpoint Map_set (k : K) (v : V) (m : list (K * V)) : list (K * V) :=
  match m with
  | [] => [(k, v)]
  | (k', v') :: m' =>
      if decide (k = k') then (k, v) :: m' else (k', v') :: Map_set k v m'
  end.

(** [new Map(entries)] *)
Definition Map_new (entries : list (K * V)) : list (K * V) :=
  List.fold_left (fun m kv => Map_set (fst kv) (snd kv) m) entries [].

Definition Map_values (m : list (K * V)) : list V := List.map snd m.

(** [m.get(k)] *)
Fixpoint Map_get (k : K) (m : list (K * V)) : option V :=
  match m with
  | [] => None
  | (k', v') :: m' => if decide (k = k') then Some v' else Map_get k m'
  end.

(** The last entry under a key in a list of entries. *)
Definition last_entry (k : K) (entries : list (K * V)) : option V :=
  Map_get k (List.rev entries).
End JsMap.

(** [item => [item.id, item]] *)
Definition entry (item : Notice) : jsid * Notice := (id item, item).

(** [Array.from(new Map(allNotices.map(item => [item.id, item])).values())] *)
Definition uniqueById (allNotices : list Notice) : list Notice :=
  Map_values (Map_new (List.map entry allNotices)).

(** The last notice under an id in a list. *)
Definition lastWithId (i : jsid) (l : list Notice) : option Notice :=
  List.find (fun n => bool_decide (id n = i)) (List.rev l).

(** What [axios.get] gives: a rejection, or a response whose body is an
    object and whose [data.data] is an array of notice objects or is missing.
    Other bodies (a null body, a [data.data] that cannot be spread, a null
    item) make the reading throw a [TypeError]; they are outside this type. *)
Inductive Response : Type :=
| Rejected
| Resolved (data : option (list Notice)).

Definition or_empty (data : option (list Notice)) : list Notice :=
  match data with Some l => l | None => [] end.

(** The merge of [fetchNotices] once both responses are there. *)
Definition mergeNotices (newsData examData : option (list Notice)) : list Notice :=
  let allNotices := or_empty newsData ++ or_empty examData in
  uniqueById allNotices.

(** ** [uniqueNotices.sort(...)] *)

(** [Array.prototype.sort] is stable.  It is modelled by insertion from the
    left: each element goes behind the elements that do not compare greater.
    On a list whose dates all parse the comparator is consistent and every
    stable sort gives this list.  With a date that does not parse the
    comparator answers NaN, the specification leaves the order to the engine,
    and only the elements of the result are the same: the theorems on runs
    speak of the sorted list up to a permutation, and of its order for dates
    that parse. *)
Section Sort.
Variable cmp : Notice -> Notice -> Z.

Fixpoint insert_sorted (x : Notice) (l : list Notice) : list Notice :=
  match l with
  | [] => [x]
  | y :: l' => if cmp x y <? 0 then x :: y :: l' else y :: insert_sorted x l'
  end.

Definition sort (l : list Notice) : list Notice :=
  List.fold_left (fun acc x => insert_sorted x acc) l [].
End Sort.

Definition byDate (Date_parse : jsstring -> option Z) (a b : Notice) : Z :=
  Date_minus (Date_parse (date a)) (Date_parse (date b)).

(** ** [applyFilters] *)

(** The inner loop over the strategies for one notice: the verdict, and the
    indices of the strategies whose [check] was called. *)
Fixpoint checkChain (checks : list (Notice -> bool)) (i : nat) (notice : Notice)
  : bool * list nat :=
  match checks with
  | [] => (true, [])
  | check :: rest =>
      if check notice
      then let '(keep, called) := checkChain rest (S i) notice in (keep, i :: called)
      else (false, [i])
  end.

(** The outer loop: the notices kept, and every call [(i, notice)] made. *)
Fixpoint applyFilters (checks : list (Notice -> bool)) (notices : list Notice)
  : list Notice * list (nat * Notice) :=
  match notices with
  | [] => ([], [])
  | notice :: rest =>
      let '(keep, called) := checkChain checks 0 notice in
      let '(results, calls) := applyFilters checks rest in
      ((if keep then notice :: results else results),
       List.map (fun i => (i, notice)) called ++ calls)
  end.

(** ** [database.js]: the [Notice] model *)

Module database.

Record doc : Type := {
  noticeId : jsstring;
  title : jsstring;
  date : jsstring;
  url : jsstring;
  sentAt : Z
}.

(** [required: true] on [noticeId], [title] and [date]: an empty string
    fails the validator. *)
Definition validates (d : doc) : bool :=
  negb (bool_decide (noticeId d = [])) && negb (bool_decide (title d = []))
  && negb (bool_decide (date d = [])).

(** [Notice.find({ noticeId: { $in: ids } }).select('noticeId')] *)
Definition find_in (coll : list doc) (ids : list jsstring) : list jsstring :=
  List.map noticeId (List.filter (fun d => bool_decide (noticeId d ∈ ids)) coll).

(** The server side of an unordered bulk insert under the unique index on
    [noticeId]: every document whose key is free is written, the others are
    write errors.  The flag tells whether there was a write error. *)
Fixpoint insertUnordered (coll : list doc) (docs : list doc) : list doc * bool :=
  match docs with
  | [] => (coll, false)
  | d :: docs' =>
      if bool_decide (noticeId d ∈ List.map noticeId coll)
      then (fst (insertUnordered coll docs'), true)
      else insertUnordered (coll ++ [d]) docs'
  end.

(** [Notice.insertMany(docs, { ordered: false })]: documents that fail
    validation are left out without an error; if none is left nothing is sent
    to the server; otherwise the batch goes to the server, and the call throws
    when the server cannot be reached or reports a write error.  [None] in the
    second component means that the call threw. *)
Definition insertMany (reachable : bool) (coll : list doc) (docs : list doc)
  : list doc * option unit :=
  match List.filter validates docs with
  | [] => (coll, Some tt)
  | valid =>
      if reachable
      then let '(coll', failed) := insertUnordered coll valid in
           (coll', if failed then None else Some tt)
      else (coll, None)
  end.

End database.

(** [String(n.id)]: a string is itself, a number is printed in decimal (ids
    are integers, far below the 10^21 where the exponent form starts). *)
Fixpoint uint_units (d : Decimal.uint) : jsstring :=
  match d with
  | Decimal.Nil => []
  | Decimal.D0 d => 48%N :: uint_units d
  | Decimal.D1 d => 49%N :: uint_units d
  | Decimal.D2 d => 50%N :: uint_units d
  | Decimal.D3 d => 51%N :: uint_units d
  | Decimal.D4 d => 52%N :: uint_units d
  | Decimal.D5 d => 53%N :: uint_units d
  | Decimal.D6 d => 54%N :: uint_units d
  | Decimal.D7 d => 55%N :: uint_units d
  | Decimal.D8 d => 56%N :: uint_units d
  | Decimal.D9 d => 57%N :: uint_units d
  end.

Definition String_ (i : jsid) : jsstring :=
  match i with
  | IdStr s => s
  | IdNum n =>
      match Z.to_int n with
      | Decimal.Pos d => uint_units d
      | Decimal.Neg d => 45%N :: uint_units d
      end
  end.

(** Does the store hold a record under the id of the notice? *)
Definition recorded (coll : list database.doc) (n : Notice) : bool :=
  bool_decide (String_ (id n) ∈ List.map database.noticeId coll).

(** ** The world of one process *)

Inductive Error : Type :=
| MONGO_URI_not_defined       (* thrown by [connectDB] *)
| ConnectError                (* [mongoose.connect] rejected *)
| TransportError              (* an [axios.get] rejected *)
| QueryError                  (* [Notice.find] rejected *)
| BulkWriteError              (* [Notice.insertMany] rejected *)
| EmailSendingFailed          (* the provider answered with an error *)
| EmailClientError            (* [resend.emails.send] rejected *)
| TypeError                   (* a property of [null] was read *)
| DisconnectError.            (* [mongoose.disconnect] rejected *)

Inductive SendResult : Type :=
| Delivered                   (* [{ data, error: null }] *)
| AnswersError                (* [{ data: null, error }] *)
| SendRejects.                (* the promise rejects *)

(** Subject line and banner depend on [hasCritical] and on [TEST_MODE] only;
    the body has one card per notice, styled by the notice's own class. *)
Record Email : Type := {
  critical : bool;
  test_prefix : bool;
  cards : list (Notice * bool)
}.

(** The subject line of [sendEmail]. *)
Definition subject (e : Email) : jsstring :=
  (if test_prefix e then lit "[TEST] " else [])
  ++ (if critical e
      then [55357; 57000]%N ++ lit " CRITICAL: 6th Sem Exam Notice Detected!"
      else [55357; 56546]%N ++ lit " New College Notice(s) Released").

(** What the program cannot decide by itself. *)
Record Outside : Type := {
  process_env : ProcessEnv;
  Date_now : Z;
  Date_parse : jsstring -> option Z;    (* time value of [new Date(s)] *)
  mongoose_connect : bool;              (* does the connection open? *)
  axios_get_NEWS : Response;
  axios_get_EXAM : Response;
  Notice_find : bool;                   (* does the query come back? *)
  Notice_insertMany : bool;             (* is the server there for the insert? *)
  resend_emails_send : SendResult;
  mongoose_disconnect : bool
}.

(** The calls worth observing, in the order they are made. *)
Inductive Call : Type :=
| init_
| fetchNotices_
| preload_ (notices : list Notice)
| check_ (strategy : nat) (notice : Notice)
| sendEmail_ (notices : list Notice)
| saveSentNotices_ (notices : list Notice)
| cleanup_
| console_error_ (e : Error)
| process_exit_ (code : Z).

Record State : Type := mkState {
  collection : list database.doc;       (* the store *)
  outbox : list Email;                  (* what the provider accepted *)
  existingIds : gset jsstring;          (* the field of the persistence object *)
  calls : list Call
}.

(** The state after some more calls. *)
Definition logged (s : State) (new : list Call) : State :=
  mkState (collection s) (outbox s) (existingIds s) (calls s ++ new).

(** ** Computations that may throw or leave the process *)

Inductive Result (A : Type) : Type :=
| Returns (a : A)
| Throws (e : Error)
| Exits (code : Z).
Arguments Returns {A} a.
Arguments Throws {A} e.
Arguments Exits {A} code.

Definition M (A : Type) : Type := State -> Result A * State.

Definition ret {A} (a : A) : M A := fun s => (Returns a, s).

Definition bind {A B} (c : M A) (f : A -> M B) : M B :=
  fun s =>
    match c s with
    | (Returns a, s') => f a s'
    | (Throws e, s') => (Throws e, s')
    | (Exits code, s') => (Exits code, s')
    end.

Notation "'await' x ':=' c 'in' k" := (bind c (fun x => k))
  (at level 10, x name, c at level 100, k at level 200, only parsing).

Definition throw {A} (e : Error) : M A := fun s => (Throws e, s).

Definition called (c : Call) : M unit :=
  fun s => (Returns tt, mkState (collection s) (outbox s) (existingIds s) (calls s ++ [c])).

(** [process.exit(code)] ends the process where it stands: nothing that
    follows it runs, neither a handler nor a finalizer. *)
Definition process_exit {A} (code : Z) : M A :=
  fun s => (Exits code, mkState (collection s) (outbox s) (existingIds s)
                                (calls s ++ [process_exit_ code])).

Definition try_catch {A} (body : M A) (handler : Error -> M A) : M A :=
  fun s =>
    match body s with
    | (Throws e, s') => handler e s'
    | r => r
    end.

(** [try { body } catch (e) { handler } finally { finalizer }]: the finalizer
    runs after the body or the handler has completed, normally or by a throw;
    it does not run when the process has exited. *)
Definition try_catch_finally (body : M unit) (handler : Error -> M unit)
    (finalizer : M unit) : M unit :=
  fun s =>
    match try_catch body handler s with
    | (Returns a, s') => finalizer s'
    | (Throws e, s') =>
        match finalizer s' with
        | (Returns _, s'') => (Throws e, s'')
        | r => r
        end
    | (Exits code, s') => (Exits code, s')
    end.

Definition set_existingIds (ids : gset jsstring) : M unit :=
  fun s => (Returns tt, mkState (collection s) (outbox s) ids (calls s)).

(** ** [database.js]: the connection *)

(** [if (!uri)] holds for a missing and for an empty connection string. *)
Definition connectDB (o : Outside) (uri : option jsstring) : M unit :=
  match uri with
  | Some (_ :: _) =>
      if mongoose_connect o then ret tt
      else await _ := called (console_error_ ConnectError) in throw ConnectError
  | _ => throw MONGO_URI_not_defined
  end.

Definition disconnectDB (o : Outside) : M unit :=
  if mongoose_disconnect o then ret tt else throw DisconnectError.

(** ** [MongoPersistenceStrategy] *)

Module MongoPersistenceStrategy.

Definition init (o : Outside) (config : Config) : M unit :=
  await _ := called init_ in
  connectDB o (MONGO_URI config).

Definition preload (o : Outside) (notices : list Notice) : M unit :=
  await _ := called (preload_ notices) in
  if (length notices =? 0)%nat then ret tt
  else
    let idsToCheck := List.map (fun n => String_ (id n)) notices in
    if Notice_find o
    then fun s =>
           let existingDocs := database.find_in (collection s) idsToCheck in
           set_existingIds (list_to_set existingDocs) s
    else throw QueryError.

Definition check (s : State) (notice : Notice) : bool :=
  negb (bool_decide (String_ (id notice) ∈ existingIds s)).

(** The document of a notice; [sentAt] is the schema's default, the clock
    when the document is made. *)
Definition operation (now : Z) (n : Notice) : database.doc := {|
  database.noticeId := String_ (id n);
  database.title := title n;
  database.date := date n;
  database.url := content n;
  database.sentAt := now
|}.

Definition insertMany (o : Outside) (operations : list database.doc) : M unit :=
  fun s =>
    let '(coll', r) := database.insertMany (Notice_insertMany o) (collection s) operations in
    let s' := mkState coll' (outbox s) (existingIds s) (calls s) in
    match r with
    | Some _ => (Returns tt, s')
    | None => (Throws BulkWriteError, s')
    end.

(** [notices.forEach(n => this.existingIds.add(String(n.id)))] *)
Definition addAll (notices : list Notice) (ids : gset jsstring) : gset jsstring :=
  ids ∪ list_to_set (List.map (fun n => String_ (id n)) notices).

Definition saveSentNotices (o : Outside) (notices : list Notice) : M unit :=
  await _ := called (saveSentNotices_ notices) in
  if (length notices =? 0)%nat then ret tt
  else
    let operations := List.map (operation (Date_now o)) notices in
    try_catch
      (await _ := insertMany o operations in
       fun s => set_existingIds (addAll notices (existingIds s)) s)
      (fun error => called (console_error_ error)).

Definition cleanup (o : Outside) : M unit :=
  await _ := called cleanup_ in
  disconnectDB o.

End MongoPersistenceStrategy.

(** ** [NoticeMonitor] *)

(** A strategy of the chain.  [Persistence] stands for the one persistence
    object of the process, the same object as the monitor's [persistence]:
    its [existingIds] is the field of the state. *)
Inductive Strategy : Type :=
| TimeFilter (self : TimeFilterStrategy.t)
| ContentFilter
| Persistence.

Definition Strategy_check (o : Outside) (s : State) (strategy : Strategy) (notice : Notice)
  : bool :=
  match strategy with
  | TimeFilter self => TimeFilterStrategy.check (Date_parse o) self notice
  | ContentFilter => ContentFilterStrategy.check notice
  | Persistence => MongoPersistenceStrategy.check s notice
  end.

Module NoticeMonitor.

Record t : Type := {
  strategies : list Strategy;
  persistence : bool          (* [false]: [this.persistence] is null *)
}.

Definition fetchNotices (o : Outside) : M (list Notice) :=
  await _ := called fetchNotices_ in
  match axios_get_NEWS o, axios_get_EXAM o with
  | Resolved newsData, Resolved examData => ret (mergeNotices newsData examData)
  | _, _ => throw TransportError
  end.

(** The calls [strategy.check(notice)] of the loop, for the record. *)
Definition checkCalls (made : list (nat * Notice)) : list Call :=
  List.map (fun c => check_ (fst c) (snd c)) made.

Definition applyFilters (o : Outside) (self : t) (notices : list Notice) : M (list Notice) :=
  fun s =>
    let '(results, made) :=
      applyFilters (List.map (Strategy_check o s) (strategies self)) notices in
    (Returns results,
     mkState (collection s) (outbox s) (existingIds s) (calls s ++ checkCalls made)).

Definition deliver (e : Email) : M unit :=
  fun s => (Returns tt, mkState (collection s) (outbox s ++ [e]) (existingIds s) (calls s)).

Definition sendEmail (o : Outside) (config : Config) (notices : list Notice) : M unit :=
  await _ := called (sendEmail_ notices) in
  let classified := List.map (fun n => (n, ContentFilterStrategy.check n)) notices in
  let hasCritical := List.existsb snd classified in
  try_catch
    (match resend_emails_send o with
     | Delivered =>
         deliver {| critical := hasCritical; test_prefix := TEST_MODE config;
                    cards := classified |}
     | AnswersError =>
         await _ := called (console_error_ EmailSendingFailed) in throw EmailSendingFailed
     | SendRejects => throw EmailClientError
     end)
    (fun error => await _ := called (console_error_ error) in throw error).

(** [uniqueNotices.filter(n => !this.persistence.existingIds.has(String(n.id)))]:
    the callback reads a property of [this.persistence]. *)
Definition noticesToSeed (self : t) (uniqueNotices : list Notice) : M (list Notice) :=
  fun s =>
    if persistence self
    then (Returns (List.filter (fun n => negb (bool_decide (String_ (id n) ∈ existingIds s)))
                               uniqueNotices), s)
    else match uniqueNotices with
         | [] => (Returns [], s)
         | _ :: _ => (Throws TypeError, s)
         end.

(** The [try] block of [run]. *)
Definition attempt (o : Outside) (config : Config) (self : t) : M unit :=
  await _ := (if persistence self then MongoPersistenceStrategy.init o config else ret tt) in
  await uniqueNotices := fetchNotices o in
  let uniqueNotices := sort (byDate (Date_parse o)) uniqueNotices in
  await _ := (if persistence self
              then MongoPersistenceStrategy.preload o uniqueNotices
              else ret tt) in
  if SEED_MODE config
  then
    await noticesToSeed := noticesToSeed self uniqueNotices in
    if (0 <? length noticesToSeed)%nat
    then MongoPersistenceStrategy.saveSentNotices o noticesToSeed
    else ret tt
  else
    await relevantNotices := applyFilters o self uniqueNotices in
    if (0 <? length relevantNotices)%nat
    then
      await _ := sendEmail o config relevantNotices in
      if persistence self && negb (TEST_MODE config)
      then MongoPersistenceStrategy.saveSentNotices o relevantNotices
      else ret tt
    else ret tt.

Definition run (o : Outside) (config : Config) (self : t) : M unit :=
  try_catch_finally
    (attempt o config self)
    (fun error => await _ := called (console_error_ error) in process_exit 1)
    (if persistence self then MongoPersistenceStrategy.cleanup o else ret tt).

End NoticeMonitor.

(** ** The entry point *)

Definition configured_strategies (o : Outside) (config : Config) : list Strategy :=
  if negb (TEST_MODE config)
  then [TimeFilter (TimeFilterStrategy.new config (Date_now o)); Persistence]
  else [].

(** [new NoticeMonitor(strategies, mongoPersistence)] *)
Definition monitor (o : Outside) (config : Config) : NoticeMonitor.t := {|
  NoticeMonitor.strategies := configured_strategies o config;
  NoticeMonitor.persistence := true
|}.

Definition main (o : Outside) : M unit :=
  let config := loadConfig (process_env o) in
  NoticeMonitor.run o config (monitor o config).

(** A process starts on the store and the outbox as it finds them, with a
    fresh persistence object. *)
Definition boot (coll : list database.doc) (sent : list Email) : State :=
  mkState coll sent ∅ [].


(** ** Sample data *)

Module Sample.

(** The instant of a string in the format of [toISOString],
    [YYYY-MM-DDTHH:mm:ss.sssZ]; other strings are left unparsed here. *)
Definition digit (c : N) : option Z :=
  if is_digit c then Some (Z.of_N c - 48) else None.

Fixpoint number (acc : Z) (s : jsstring) : option Z :=
  match s with
  | [] => Some acc
  | c :: s' => match digit c with Some d => number (10 * acc + d) s' | None => None end
  end.

Definition days_from_civil (y m d : Z) : Z :=
  let y := if m <=? 2 then y - 1 else y in
  let era := y / 400 in
  let yoe := y - era * 400 in
  let doy := (153 * (if 2 <? m then m - 3 else m + 9) + 2) / 5 + d - 1 in
  let doe := yoe * 365 + yoe / 4 - yoe / 100 + doy in
  era * 146097 + doe - 719468.

Definition iso_parse (s : jsstring) : option Z :=
  match s with
  | [y1; y2; y3; y4; 45; m1; m2; 45; d1; d2; 84; h1; h2; 58; i1; i2; 58; s1; s2; 46;
     f1; f2; f3; 90]%N =>
      match number 0 [y1; y2; y3; y4], number 0 [m1; m2], number 0 [d1; d2],
            number 0 [h1; h2], number 0 [i1; i2], number 0 [s1; s2], number 0 [f1; f2; f3] with
      | Some y, Some m, Some d, Some h, Some i, Some sec, Some f =>
          if (1 <=? m) && (m <=? 12) && (1 <=? d) && (d <=? 31) && (h <=? 23) && (i <=? 59)
             && (sec <=? 59)
          then Some ((((days_from_civil y m d * 24 + h) * 60 + i) * 60 + sec) * 1000 + f)
          else None
      | _, _, _, _, _, _, _ => None
      end
  | _ => None
  end.

(** 2025-03-10T09:00:00.000Z *)
Definition clock : Z := 1741597200000.

Definition exam_notice : Notice := {|
  id := IdStr (lit "99999");
  title := lit "Urgent: Exam Form for B.Tech VI Sem (Main) 2025";
  date := lit "2025-03-10T06:30:00.000Z";
  content := lit "download/form_vi_sem.pdf"
|}.

Definition holiday_notice : Notice := {|
  id := IdNum 88888;
  title := lit "Holiday Notice: Holi Festival";
  date := lit "2025-03-09T18:00:00.000Z";
  content := lit "download/holi.pdf"
|}.

(** Forty hours before [clock]. *)
Definition old_notice : Notice := {|
  id := IdStr (lit "77777");
  title := lit "Exam Form for B.Tech I Sem (Back)";
  date := lit "2025-03-08T17:00:00.000Z";
  content := lit "download/back_i_sem.pdf"
|}.

(** The same id as [holiday_notice], as the other endpoint lists it. *)
Definition holiday_again : Notice := {|
  id := IdNum 88888;
  title := lit "Holiday Notice: Holi Festival (revised)";
  date := lit "2025-03-09T18:00:00.000Z";
  content := lit "download/holi_v2.pdf"
|}.

(** The id of [exam_notice] as a number: another key of the [Map], the same
    [noticeId]. *)
Definition exam_numbered : Notice := {|
  id := IdNum 99999;
  title := lit "Exam Form for B.Tech VI Sem";
  date := lit "2025-03-10T07:00:00.000Z";
  content := lit "download/form.pdf"
|}.

Definition env (seed : bool) : ProcessEnv := {|
  env_MONGO_URI := Some (lit "mongodb://localhost/notices");
  env_TEST_MODE := None;
  env_SEED_MODE := if seed then Some (lit "true") else None;
  env_NOTICE_AGE_LIMIT_HOURS := None
|}.

Definition news : list Notice := [exam_notice; holiday_notice].
Definition exams : list Notice := [old_notice; holiday_again].

(** A day on which every collaborator answers. *)
Definition fine (seed : bool) (now : Z) : Outside := {|
  process_env := env seed;
  Date_now := now;
  Date_parse := iso_parse;
  mongoose_connect := true;
  axios_get_NEWS := Resolved (Some news);
  axios_get_EXAM := Resolved (Some exams);
  Notice_find := true;
  Notice_insertMany := true;
  resend_emails_send := Delivered;
  mongoose_disconnect := true
|}.

(** The same day with the connection string missing. *)
Definition no_uri : Outside := {|
  process_env := {| env_MONGO_URI := None; env_TEST_MODE := None;
                    env_SEED_MODE := None; env_NOTICE_AGE_LIMIT_HOURS := None |};
  Date_now := clock;
  Date_parse := iso_parse;
  mongoose_connect := true;
  axios_get_NEWS := Resolved (Some news);
  axios_get_EXAM := Resolved (Some exams);
  Notice_find := true;
  Notice_insertMany := true;
  resend_emails_send := Delivered;
  mongoose_disconnect := true
|}.

(** The same day with the e-mail provider answering with an error. *)
Definition mail_down : Outside := {|
  process_env := env false;
  Date_now := clock;
  Date_parse := iso_parse;
  mongoose_connect := true;
  axios_get_NEWS := Resolved (Some news);
  axios_get_EXAM := Resolved (Some exams);
  Notice_find := true;
  Notice_insertMany := true;
  resend_emails_send := AnswersError;
  mongoose_disconnect := true
|}.

(** The same day with the store gone by the time of the insert. *)
Definition store_down : Outside := {|
  process_env := env false;
  Date_now := clock;
  Date_parse := iso_parse;
  mongoose_connect := true;
  axios_get_NEWS := Resolved (Some news);
  axios_get_EXAM := Resolved (Some exams);
  Notice_find := true;
  Notice_insertMany := false;
  resend_emails_send := Delivered;
  mongoose_disconnect := true
|}.


(** The state in which a first normal run on an empty store ends. *)
Definition after_first_run : State := snd (main (fine false clock) (boot [] [])).

End Sample.

From Stdlib Require DecimalPos DecimalZ Sorted.

(** ** [cleanUrl] *)

(** The character class of the pattern: the single quote, the double quote
    and [\s]. *)
Definition is_quote_or_space (c : N) : bool :=
  ((c =? 39) || (c =? 34))%N || RegExp.is_space c.

(** [url ? url.replace(pattern, '') : '']: every match of the class is
    removed (flag [g]); a missing or empty [url] gives the empty string. *)
Definition cleanUrl (url : option jsstring) : jsstring :=
  match url with
  | Some (c :: s) => List.filter (fun c => negb (is_quote_or_space c)) (c :: s)
  | _ => []
  end.

(** ** Comparators *)

(** On the notices of [l] the comparator is the difference of the keys. *)
Definition keyed (cmp : Notice -> Notice -> Z) (t : Notice -> Z) (l : list Notice) : Prop :=
  forall a b, In a l -> In b l -> cmp a b = t a - t b.

(** The instant of a notice, 0 when its date does not parse. *)
Definition instant (Date_parse : jsstring -> option Z) (n : Notice) : Z :=
  match Date_parse (date n) with Some z => z | None => 0 end.

(** ** The message of [sendEmail] *)

(** What [sendEmail] hands to the provider for a list of notices. *)
Definition digest (config : Config) (notices : list Notice) : Email := {|
  critical :=
    List.existsb snd (List.map (fun n => (n, ContentFilterStrategy.check n)) notices);
  test_prefix := TEST_MODE config;
  cards := List.map (fun n => (n, ContentFilterStrategy.check n)) notices
|}.

(** ** Kinds of calls *)

Definition is_sendEmail (c : Call) : bool :=
  match c with sendEmail_ _ => true | _ => false end.

Definition is_saveSentNotices (c : Call) : bool :=
  match c with saveSentNotices_ _ => true | _ => false end.

(** ** The one-shot script *)

(** The script that preceded the monitor: one pass of fetch, filter and send,
    without a store. *)
Module Script.

(** [process.env.TEST_MODE || false], read as a condition: every non-empty
    string counts as true. *)
Definition TEST_MODE (e : ProcessEnv) : bool :=
  match env_TEST_MODE e with
  | Some (_ :: _) => true
  | _ => false
  end.

(** The message of the script: subject and heading are those of a critical
    digest, and every card is in the red style. *)
Definition message (e : ProcessEnv) (notices : list Notice) : Email := {|
  critical := true;
  test_prefix := TEST_MODE e;
  cards := List.map (fun n => (n, true)) notices |}.

(** The answer of the provider is not looked at; a rejection is caught and
    logged. *)
Definition sendEmail (o : Outside) (notices : list Notice) : M unit :=
  await _ := called (sendEmail_ notices) in
  try_catch
    (match resend_emails_send o with
     | Delivered => NoticeMonitor.deliver (message (process_env o) notices)
     | AnswersError => ret tt
     | SendRejects => throw EmailClientError
     end)
    (fun error => called (console_error_ error)).

Definition checkNews (o : Outside) : M unit :=
  try_catch
    (await uniqueNotices :=
       match axios_get_NEWS o, axios_get_EXAM o with
       | Resolved newsData, Resolved examData => ret (mergeNotices newsData examData)
       | _, _ => throw TransportError
       end in
     let oneDayAgo := TimeClip (Date_now o - 24 * 60 * 60 * 1000) in
     let recentCirculars :=
       if negb (TEST_MODE (process_env o))
       then List.filter (fun item => Date_ge (Date_parse o (date item)) oneDayAgo) uniqueNotices
       else uniqueNotices in
     if (length recentCirculars =? 0)%nat then ret tt
     else
       let relevantNotices := List.filter checkNews_relevant recentCirculars in
       if (0 <? length relevantNotices)%nat
       then sendEmail o relevantNotices
       else ret tt)
    (fun error => await _ := called (console_error_ error) in process_exit 1).

(** The notices of a merged list that the script picks. *)
Definition picked (o : Outside) (uniqueNotices : list Notice) : list Notice :=
  List.filter
    (fun item =>
       checkNews_relevant item
       && (TEST_MODE (process_env o)
           || Date_ge (Date_parse o (date item)) (TimeClip (Date_now o - 24 * 60 * 60 * 1000))))
    uniqueNotices.

End Script.

(** ** More sample days *)

Module Scenario.

(** The day [o] under another environment. *)
Definition with_env (e : ProcessEnv) (o : Outside) : Outside := {|
  process_env := e;
  Date_now := Date_now o;
  Date_parse := Date_parse o;
  mongoose_connect := mongoose_connect o;
  axios_get_NEWS := axios_get_NEWS o;
  axios_get_EXAM := axios_get_EXAM o;
  Notice_find := Notice_find o;
  Notice_insertMany := Notice_insertMany o;
  resend_emails_send := resend_emails_send o;
  mongoose_disconnect := mongoose_disconnect o
|}.

(** [TEST_MODE=true] *)
Definition test_env : ProcessEnv := {|
  env_MONGO_URI := Some (lit "mongodb://localhost/notices");
  env_TEST_MODE := Some (lit "true");
  env_SEED_MODE := None;
  env_NOTICE_AGE_LIMIT_HOURS := None
|}.

(** [TEST_MODE=false] *)
Definition test_off_env : ProcessEnv := {|
  env_MONGO_URI := Some (lit "mongodb://localhost/notices");
  env_TEST_MODE := Some (lit "false");
  env_SEED_MODE := None;
  env_NOTICE_AGE_LIMIT_HOURS := None
|}.

(** [NOTICE_AGE_LIMIT_HOURS=one day] *)
Definition worded_limit_env : ProcessEnv := {|
  env_MONGO_URI := Some (lit "mongodb://localhost/notices");
  env_TEST_MODE := None;
  env_SEED_MODE := None;
  env_NOTICE_AGE_LIMIT_HOURS := Some (lit "one day")
|}.

Definition test_day : Outside := with_env test_env (Sample.fine false Sample.clock).
Definition test_off_day : Outside := with_env test_off_env (Sample.fine false Sample.clock).
Definition worded_limit_day : Outside :=
  with_env worded_limit_env (Sample.fine false Sample.clock).

(** The day on which the news endpoint does not answer. *)
Definition news_down : Outside := {|
  process_env := Sample.env false;
  Date_now := Sample.clock;
  Date_parse := Sample.iso_parse;
  mongoose_connect := true;
  axios_get_NEWS := Rejected;
  axios_get_EXAM := Resolved (Some Sample.exams);
  Notice_find := true;
  Notice_insertMany := true;
  resend_emails_send := Delivered;
  mongoose_disconnect := true
|}.



(** The state in which the run of [Sample.mail_down] on an empty store ends. *)
Definition after_failed_send : State := snd (main Sample.mail_down (boot [] [])).


End Scenario.
(** * Properties *)

(** ** The matcher *)

Lemma m_Star r1 p s k : m (Star r1) p s k = star_loop r1 k (length s) p s.
Proof. reflexivity. Qed.

Lemma star_loop_S r1 k fuel p t :
  star_loop r1 k (S fuel) p t =
  if m r1 p t (fun p' t' =>
                 if (length t' <? length t)%nat then star_loop r1 k fuel p' t' else false)
  then true else k p t.
Proof. reflexivity. Qed.

Lemma star_loop_sound r1 k :
  (forall p s k,
     m r1 p s k = true <-> exists p' s', matches r1 p s p' s' /\ k p' s' = true) ->
  forall fuel p t,
    star_loop r1 k fuel p t = true ->
    exists p' s', matches (Star r1) p t p' s' /\ k p' s' = true.
Proof.
  intros Hr1. induction fuel as [|fuel IH]; intros p t.
  - simpl. intros Hk. exists p, t. split; [constructor|exact Hk].
  - rewrite star_loop_S. destruct (m r1 p t _) eqn:Hm.
    + intros _. apply Hr1 in Hm as (p1 & s1 & Hstep & Hk).
      destruct (Nat.ltb_spec (length s1) (length t)) as [Hlt|]; [|discriminate].
      apply IH in Hk as (p' & s' & Hrest & Hk).
      exists p', s'. split; [|exact Hk].
      eapply matches_Star_step; eassumption.
    + intros Hk. exists p, t. split; [constructor|exact Hk].
Qed.

Lemma star_loop_complete r1 k :
  (forall p s k,
     m r1 p s k = true <-> exists p' s', matches r1 p s p' s' /\ k p' s' = true) ->
  forall r p t p' s',
    matches r p t p' s' -> r = Star r1 -> k p' s' = true ->
    forall fuel, (length t <= fuel)%nat -> star_loop r1 k fuel p t = true.
Proof.
  intros Hr1 r p t p' s' Hmatch.
  induction Hmatch as [| | | | | | | | | |r p s|r p s p1 s1 p2 s2 Hstep _ Hlt Hrest IH];
    try discriminate; intros [= ->] Hk fuel Hfuel.
  - destruct fuel as [|fuel]; [exact Hk|]. rewrite star_loop_S.
    destruct (m r1 p s _); [reflexivity|exact Hk].
  - destruct fuel as [|fuel]; [lia|]. rewrite star_loop_S.
    assert (Hm : m r1 p s (fun p' t' =>
                   if (length t' <? length s)%nat then star_loop r1 k fuel p' t' else false)
                 = true).
    { apply Hr1. exists p1, s1. split; [exact Hstep|].
      apply Nat.ltb_lt in Hlt as Hlt'. rewrite Hlt'.
      apply IH; [reflexivity|exact Hk|lia]. }
    rewrite Hm. reflexivity.
Qed.

(** The matcher decides the relation. *)
Lemma m_spec r p s k :
  m r p s k = true <-> exists p' s', matches r p s p' s' /\ k p' s' = true.
Proof.
  revert p s k.
  induction r as [c| | | | |r1 IH1 r2 IH2|r1 IH1 r2 IH2|r1 IH1|r1 IH1]; intros p s k.
  - simpl. destruct s as [|x s].
    + split; [discriminate|]. intros (p' & s' & H & _). inversion H.
    + destruct (N.eqb_spec (canonicalize x) (canonicalize c)) as [Heq|Hne].
      * split.
        -- intros Hk. exists (Some x), s. split; [constructor; exact Heq|exact Hk].
        -- intros (p' & s' & H & Hk). inversion H; subst. exact Hk.
      * split; [discriminate|]. intros (p' & s' & H & _). inversion H; subst. contradiction.
  - simpl. destruct s as [|x s].
    + split; [discriminate|]. intros (p' & s' & H & _). inversion H.
    + destruct (is_line_terminator x) eqn:Hx.
      * split; [discriminate|]. intros (p' & s' & H & _). inversion H; subst. congruence.
      * split.
        -- intros Hk. exists (Some x), s. split; [constructor; exact Hx|exact Hk].
        -- intros (p' & s' & H & Hk). inversion H; subst. exact Hk.
  - simpl. destruct s as [|x s].
    + split; [discriminate|]. intros (p' & s' & H & _). inversion H.
    + destruct (is_space x) eqn:Hx.
      * split.
        -- intros Hk. exists (Some x), s. split; [constructor; exact Hx|exact Hk].
        -- intros (p' & s' & H & Hk). inversion H; subst. exact Hk.
      * split; [discriminate|]. intros (p' & s' & H & _). inversion H; subst. congruence.
  - simpl. destruct (xorb _ _) eqn:Hb.
    + split.
      * intros Hk. exists p, s. split; [constructor; exact Hb|exact Hk].
      * intros (p' & s' & H & Hk). inversion H; subst. exact Hk.
    + split; [discriminate|]. intros (p' & s' & H & _). inversion H; subst. congruence.
  - simpl. split.
    + intros Hk. exists p, s. split; [constructor|exact Hk].
    + intros (p' & s' & H & Hk). inversion H; subst. exact Hk.
  - simpl. rewrite IH1. split.
    + intros (p1 & s1 & H1 & H2). apply IH2 in H2 as (p2 & s2 & H2 & Hk).
      exists p2, s2. split; [econstructor; eassumption|exact Hk].
    + intros (p2 & s2 & H & Hk). inversion H; subst.
      eexists _, _. split; [eassumption|]. apply IH2. eauto.
  - simpl. destruct (m r1 p s k) eqn:H1.
    + split; [|reflexivity]. intros _. apply IH1 in H1 as (p' & s' & H1 & Hk).
      exists p', s'. split; [apply matches_Alt_l; exact H1|exact Hk].
    + rewrite IH2. split.
      * intros (p' & s' & H2 & Hk). exists p', s'.
        split; [apply matches_Alt_r; exact H2|exact Hk].
      * intros (p' & s' & H & Hk). inversion H; subst; [|eauto].
        exfalso. assert (Ht : m r1 p s k = true) by (apply IH1; eauto). congruence.
  - rewrite m_Star. split.
    + apply star_loop_sound, IH1.
    + intros (p' & s' & H & Hk).
      eapply star_loop_complete; [exact IH1|exact H|reflexivity|exact Hk|lia].
  - simpl. destruct (m r1 p s k) eqn:H1.
    + split; [|reflexivity]. intros _. apply IH1 in H1 as (p' & s' & H1 & Hk).
      exists p', s'. split; [apply matches_Opt_some; exact H1|exact Hk].
    + split.
      * intros Hk. exists p, s. split; [apply matches_Opt_none|exact Hk].
      * intros (p' & s' & H & Hk). inversion H; subst; [|exact Hk].
        exfalso. assert (Ht : m r1 p s k = true) by (apply IH1; eauto). congruence.
Qed.

Lemma search_spec r p s :
  search r p s = true <->
  exists s1 s2 p' s', s = s1 ++ s2 /\ matches r (prev_after p s1) s2 p' s'.
Proof.
  revert p. induction s as [|x s IH]; intros p; simpl.
  - destruct (m r p [] _) eqn:Hm.
    + split; [|reflexivity]. intros _. apply m_spec in Hm as (p' & s' & Hm & _).
      exists [], [], p', s'. split; [reflexivity|exact Hm].
    + split; [discriminate|]. intros (s1 & s2 & p' & s' & Heq & H).
      symmetry in Heq. apply app_eq_nil in Heq as [-> ->]. simpl in H.
      assert (Ht : m r p [] (fun _ _ => true) = true) by (apply m_spec; eauto).
      congruence.
  - destruct (m r p (x :: s) _) eqn:Hm.
    + split; [|reflexivity]. intros _. apply m_spec in Hm as (p' & s' & Hm & _).
      exists [], (x :: s), p', s'. split; [reflexivity|exact Hm].
    + rewrite IH. split.
      * intros (s1 & s2 & p' & s' & -> & H). exists (x :: s1), s2, p', s'.
        split; [reflexivity|exact H].
      * intros (s1 & s2 & p' & s' & Heq & H). destruct s1 as [|y s1].
        -- simpl in Heq, H. subst s2.
           assert (Ht : m r p (x :: s) (fun _ _ => true) = true) by (apply m_spec; eauto).
           congruence.
        -- simpl in Heq. injection Heq as <- ->. exists s1, s2, p', s'.
           split; [reflexivity|exact H].
Qed.

(** [regex.test(s)] is true exactly when the pattern matches somewhere in
    [s]. *)
Lemma test_spec r s :
  test r s = true <->
  exists s1 s2 p' s', s = s1 ++ s2 /\ matches r (prev_after None s1) s2 p' s'.
Proof. apply search_spec. Qed.


(** ** The content filter *)

Lemma explicitMatch_spec (t : jsstring) :
  ContentFilterStrategy.explicitMatch t = true <->
  exists regex, In regex ContentFilterStrategy.CRITICAL_PATTERNS /\ test regex t = true.
Proof.
  unfold ContentFilterStrategy.explicitMatch. rewrite existsb_exists. reflexivity.
Qed.

Lemma check_eq (notice : Notice) :
  ContentFilterStrategy.check notice =
  ContentFilterStrategy.explicitMatch (title notice)
  || ContentFilterStrategy.isGenericUrgent (title notice).
Proof.
  unfold ContentFilterStrategy.check.
  destruct (_ || _); reflexivity.
Qed.

(** C1. A notice is classified critical exactly when its title matches one of
    the four explicit patterns, or matches the generic exam-form pattern and
    not the excluded-semester pattern.  So an explicit match is critical
    whatever the exclusion pattern says, a generic match that is also an
    excluded semester is critical only through an explicit match, and a title
    in neither tier is not critical.  The one-shot script's keyword filter is
    the same predicate. *)
Theorem content_check_two_tiers (notice : Notice) :
  length ContentFilterStrategy.CRITICAL_PATTERNS = 4%nat
  /\ (ContentFilterStrategy.check notice = true <->
      (exists regex, In regex ContentFilterStrategy.CRITICAL_PATTERNS
                     /\ test regex (title notice) = true)
      \/ (test ContentFilterStrategy.GENERIC_EXAM_FORM (title notice) = true
          /\ test ContentFilterStrategy.EXCLUDE_SEMESTERS (title notice) = false))
  /\ ((exists regex, In regex ContentFilterStrategy.CRITICAL_PATTERNS
                     /\ test regex (title notice) = true) ->
      forall excluded, test ContentFilterStrategy.EXCLUDE_SEMESTERS (title notice) = excluded ->
      ContentFilterStrategy.check notice = true)
  /\ ((forall regex, In regex ContentFilterStrategy.CRITICAL_PATTERNS ->
                     test regex (title notice) = false) ->
      test ContentFilterStrategy.GENERIC_EXAM_FORM (title notice) = true ->
      test ContentFilterStrategy.EXCLUDE_SEMESTERS (title notice) = true ->
      ContentFilterStrategy.check notice = false)
  /\ ((forall regex, In regex ContentFilterStrategy.CRITICAL_PATTERNS ->
                     test regex (title notice) = false) ->
      test ContentFilterStrategy.GENERIC_EXAM_FORM (title notice) = false ->
      ContentFilterStrategy.check notice = false)
  /\ checkNews_relevant notice = ContentFilterStrategy.check notice.
Proof.
  assert (Hiff : ContentFilterStrategy.check notice = true <->
      (exists regex, In regex ContentFilterStrategy.CRITICAL_PATTERNS
                     /\ test regex (title notice) = true)
      \/ (test ContentFilterStrategy.GENERIC_EXAM_FORM (title notice) = true
          /\ test ContentFilterStrategy.EXCLUDE_SEMESTERS (title notice) = false)).
  { rewrite check_eq, orb_true_iff, explicitMatch_spec.
    unfold ContentFilterStrategy.isGenericUrgent.
    rewrite andb_true_iff, negb_true_iff. reflexivity. }
  assert (Hno : (forall regex, In regex ContentFilterStrategy.CRITICAL_PATTERNS ->
                     test regex (title notice) = false) ->
                ContentFilterStrategy.explicitMatch (title notice) = false).
  { intros Hall. apply not_true_is_false. rewrite explicitMatch_spec.
    intros (regex & Hin & Hm). rewrite (Hall regex Hin) in Hm. discriminate. }
  split; [reflexivity|]. split; [exact Hiff|].
  split; [intros Hex excluded _; apply Hiff; left; exact Hex|].
  split.
  - intros Hall _ Hexcl. rewrite check_eq, (Hno Hall).
    unfold ContentFilterStrategy.isGenericUrgent. rewrite Hexcl.
    rewrite andb_false_r. reflexivity.
  - split.
    + intros Hall Hgen. rewrite check_eq, (Hno Hall).
      unfold ContentFilterStrategy.isGenericUrgent. rewrite Hgen. reflexivity.
    + reflexivity.
Qed.


(** The two tiers on titles: an explicit match that is also an excluded
    semester ("VI Sem" contains "I Sem"), a generic match of an excluded
    semester, and a title in neither tier. *)
Example explicit_match_beats_exclusion :
  test ContentFilterStrategy.EXCLUDE_SEMESTERS (title Sample.exam_notice) = true
  /\ ContentFilterStrategy.explicitMatch (title Sample.exam_notice) = true
  /\ ContentFilterStrategy.check Sample.exam_notice = true.
Proof. repeat split; vm_compute; reflexivity. Qed.

Example generic_match_is_excluded :
  test ContentFilterStrategy.GENERIC_EXAM_FORM (title Sample.old_notice) = true
  /\ test ContentFilterStrategy.EXCLUDE_SEMESTERS (title Sample.old_notice) = true
  /\ ContentFilterStrategy.explicitMatch (title Sample.old_notice) = false
  /\ ContentFilterStrategy.check Sample.old_notice = false.
Proof. repeat split; vm_compute; reflexivity. Qed.

Example neither_tier_is_not_critical :
  ContentFilterStrategy.check Sample.holiday_notice = false.
Proof. vm_compute. reflexivity. Qed.
(** ** The merge of [fetchNotices] *)

Section JsMapFacts.
Context {K V : Type} `{EqDecision K}.
Implicit Types (m : list (K * V)) (entries : list (K * V)).

Lemma Map_get_set_eq k v m : Map_get k (Map_set k v m) = Some v.
Proof.
  induction m as [|[k' v'] m IH]; simpl.
  - destruct (decide (k = k)); congruence.
  - destruct (decide (k = k')) as [->|Hne]; simpl.
    + destruct (decide (k' = k')); congruence.
    + destruct (decide (k = k')); [congruence|exact IH].
Qed.

Lemma Map_get_set_ne k k' v m : k' <> k -> Map_get k' (Map_set k v m) = Map_get k' m.
Proof.
  intros Hne. induction m as [|[k0 v0] m IH]; simpl.
  - destruct (decide (k' = k)); congruence.
  - destruct (decide (k = k0)) as [->|Hk]; simpl.
    + destruct (decide (k' = k0)); congruence.
    + destruct (decide (k' = k0)); [reflexivity|exact IH].
Qed.

Lemma Map_set_keys_In k v m k0 :
  In k0 (List.map fst (Map_set k v m)) <-> k0 = k \/ In k0 (List.map fst m).
Proof.
  induction m as [|[k' v'] m IH]; simpl.
  - intuition congruence.
  - destruct (decide (k = k')) as [->|Hne]; simpl.
    + intuition congruence.
    + rewrite IH. intuition congruence.
Qed.

Lemma Map_set_NoDup k v m :
  List.NoDup (List.map fst m) -> List.NoDup (List.map fst (Map_set k v m)).
Proof.
  induction m as [|[k' v'] m IH]; simpl; intros Hnd.
  - repeat constructor. intros [].
  - destruct (decide (k = k')) as [->|Hne]; simpl; [exact Hnd|].
    inversion Hnd as [|? ? Hnotin Hnd']; subst. constructor.
    + rewrite Map_set_keys_In. intros [Heq|Hin]; [congruence|contradiction].
    + apply IH, Hnd'.
Qed.

Lemma Map_set_In k v m kv :
  In kv (Map_set k v m) -> kv = (k, v) \/ In kv m.
Proof.
  induction m as [|[k' v'] m IH]; simpl.
  - intros [Heq|[]]. left. symmetry. exact Heq.
  - destruct (decide (k = k')); simpl; intros [Heq|Hin]; auto.
    destruct (IH Hin); auto.
Qed.

Lemma Map_get_app k m1 m2 :
  Map_get k (m1 ++ m2) = match Map_get k m1 with Some v => Some v | None => Map_get k m2 end.
Proof.
  induction m1 as [|[k' v'] m1 IH]; simpl; [reflexivity|].
  destruct (decide (k = k')); [reflexivity|exact IH].
Qed.

Lemma fold_Map_set_get k entries m :
  Map_get k (List.fold_left (fun m kv => Map_set (fst kv) (snd kv) m) entries m) =
  match last_entry k entries with Some v => Some v | None => Map_get k m end.
Proof.
  revert m. induction entries as [|[k0 v0] entries IH]; intros m; simpl.
  - reflexivity.
  - rewrite IH. unfold last_entry. simpl. rewrite Map_get_app.
    destruct (Map_get k (List.rev entries)); [reflexivity|]. simpl.
    destruct (decide (k = k0)) as [->|Hne].
    + apply Map_get_set_eq.
    + apply Map_get_set_ne. exact Hne.
Qed.

Lemma fold_Map_set_NoDup entries m :
  List.NoDup (List.map fst m) ->
  List.NoDup (List.map fst (List.fold_left (fun m kv => Map_set (fst kv) (snd kv) m) entries m)).
Proof.
  revert m. induction entries as [|[k0 v0] entries IH]; intros m Hnd; simpl.
  - exact Hnd.
  - apply IH, Map_set_NoDup, Hnd.
Qed.

Lemma fold_Map_set_In entries m kv :
  In kv (List.fold_left (fun m kv => Map_set (fst kv) (snd kv) m) entries m) ->
  In kv entries \/ In kv m.
Proof.
  revert m. induction entries as [|[k0 v0] entries IH]; intros m; simpl.
  - tauto.
  - intros Hin. destruct (IH _ Hin) as [Hin'|Hin']; [tauto|].
    destruct (Map_set_In _ _ _ _ Hin'); auto.
Qed.

Lemma Map_get_In k v m :
  List.NoDup (List.map fst m) -> In (k, v) m -> Map_get k m = Some v.
Proof.
  induction m as [|[k' v'] m IH]; simpl; [tauto|].
  intros Hnd [Heq|Hin].
  - inversion Heq; subst. destruct (decide (k = k)); congruence.
  - inversion Hnd as [|? ? Hnotin Hnd']; subst.
    destruct (decide (k = k')) as [->|Hne].
    + exfalso. apply Hnotin. apply (in_map fst) in Hin. exact Hin.
    + apply IH; assumption.
Qed.

Lemma Map_get_Some_In k v m : Map_get k m = Some v -> In (k, v) m.
Proof.
  induction m as [|[k' v'] m IH]; simpl; [discriminate|].
  destruct (decide (k = k')) as [->|Hne].
  - intros [= ->]. left. reflexivity.
  - intros Hget. right. apply IH, Hget.
Qed.

Lemma Map_new_NoDup entries : List.NoDup (List.map fst (Map_new entries)).
Proof. apply fold_Map_set_NoDup. constructor. Qed.

Lemma Map_new_get k entries : Map_get k (Map_new entries) = last_entry k entries.
Proof.
  unfold Map_new. rewrite fold_Map_set_get.
  destruct (last_entry k entries); reflexivity.
Qed.

Lemma Map_new_In entries kv : In kv (Map_new entries) -> In kv entries.
Proof.
  intros Hin. destruct (fold_Map_set_In _ _ _ Hin) as [H|[]]. exact H.
Qed.
End JsMapFacts.

Lemma Map_get_entries i l :
  Map_get i (List.map entry l) = List.find (fun n => bool_decide (id n = i)) l.
Proof.
  induction l as [|n l IH]; simpl; [reflexivity|].
  destruct (decide (i = id n)) as [->|Hne].
  - rewrite bool_decide_eq_true_2; reflexivity.
  - rewrite bool_decide_eq_false_2; [exact IH|congruence].
Qed.

Lemma last_entry_lastWithId i l : last_entry i (List.map entry l) = lastWithId i l.
Proof.
  unfold last_entry, lastWithId. rewrite <- map_rev. apply Map_get_entries.
Qed.

Lemma lastWithId_is_Some i l :
  In i (List.map id l) -> exists n, lastWithId i l = Some n.
Proof.
  intros Hin. apply in_map_iff in Hin as (n & Hid & Hn).
  unfold lastWithId.
  destruct (List.find _ (List.rev l)) as [n'|] eqn:Hfind; [eauto|].
  exfalso. assert (Hrev : In n (List.rev l)) by (apply in_rev; rewrite rev_involutive; exact Hn).
  pose proof (find_none _ _ Hfind n Hrev) as Hf. simpl in Hf.
  rewrite bool_decide_eq_true_2 in Hf; [discriminate|exact Hid].
Qed.

Lemma lastWithId_Some i l n : lastWithId i l = Some n -> In n l /\ id n = i.
Proof.
  unfold lastWithId. intros Hfind. apply find_some in Hfind as [Hin Hid].
  split; [apply in_rev, Hin|]. apply bool_decide_eq_true_1 in Hid. exact Hid.
Qed.

Lemma uniqueById_entries allNotices k v :
  In (k, v) (Map_new (List.map entry allNotices)) -> k = id v /\ In v allNotices.
Proof.
  intros Hin. apply Map_new_In, in_map_iff in Hin as (n & Heq & Hn).
  inversion Heq; subst. auto.
Qed.

Lemma uniqueById_ids allNotices :
  List.map id (uniqueById allNotices) = List.map fst (Map_new (List.map entry allNotices)).
Proof.
  unfold uniqueById, Map_values. rewrite List.map_map.
  apply map_ext_in. intros [k v] Hin. simpl.
  apply uniqueById_entries in Hin as [-> _]. reflexivity.
Qed.

Lemma uniqueById_NoDup allNotices : List.NoDup (List.map id (uniqueById allNotices)).
Proof. rewrite uniqueById_ids. apply Map_new_NoDup. Qed.

Lemma uniqueById_last allNotices n :
  In n (uniqueById allNotices) -> lastWithId (id n) allNotices = Some n.
Proof.
  unfold uniqueById, Map_values. intros Hin.
  apply in_map_iff in Hin as ([k v] & Heq & Hin). simpl in Heq. subst v.
  destruct (uniqueById_entries _ _ _ Hin) as [-> _].
  rewrite <- last_entry_lastWithId, <- Map_new_get.
  apply Map_get_In; [apply Map_new_NoDup|exact Hin].
Qed.

Lemma uniqueById_complete allNotices i :
  In i (List.map id allNotices) -> In i (List.map id (uniqueById allNotices)).
Proof.
  intros Hin. destruct (lastWithId_is_Some _ _ Hin) as (n & Hlast).
  rewrite <- last_entry_lastWithId, <- Map_new_get in Hlast.
  apply Map_get_Some_In in Hlast. rewrite uniqueById_ids.
  apply (in_map fst) in Hlast. exact Hlast.
Qed.

Lemma uniqueById_In allNotices n : In n (uniqueById allNotices) -> In n allNotices.
Proof. intros Hin. apply uniqueById_last, lastWithId_Some in Hin. tauto. Qed.

(** C3. When both requests resolve, [fetchNotices] returns the merge of the
    two lists (news, then exam); the merge has no two notices with the same
    id, each id in it comes from one of the two lists, the notice kept under
    an id is the last one with that id in the concatenation, and every id of
    the sources is kept. *)
Theorem fetchNotices_merges_by_id (o : Outside) (s : State)
    (newsData examData : option (list Notice)) :
  axios_get_NEWS o = Resolved newsData ->
  axios_get_EXAM o = Resolved examData ->
  fst (NoticeMonitor.fetchNotices o s) = Returns (mergeNotices newsData examData)
  /\ List.NoDup (List.map id (mergeNotices newsData examData))
  /\ (forall n, In n (mergeNotices newsData examData) ->
        In (id n) (List.map id (or_empty newsData))
        \/ In (id n) (List.map id (or_empty examData)))
  /\ (forall n, In n (mergeNotices newsData examData) ->
        lastWithId (id n) (or_empty newsData ++ or_empty examData) = Some n)
  /\ (forall n, In n (or_empty newsData ++ or_empty examData) ->
        In (id n) (List.map id (mergeNotices newsData examData))).
Proof.
  intros Hnews Hexam. unfold mergeNotices.
  split; [|split; [|split; [|split]]].
  - unfold NoticeMonitor.fetchNotices, bind, called, ret. simpl.
    rewrite Hnews, Hexam. reflexivity.
  - apply uniqueById_NoDup.
  - intros n Hin. apply uniqueById_In in Hin.
    apply in_app_or in Hin as [Hin|Hin]; [left|right]; apply in_map; exact Hin.
  - intros n Hin. apply uniqueById_last, Hin.
  - intros n Hin. apply uniqueById_complete, in_map, Hin.
Qed.

Lemma fetchNotices_merges_by_id_witness :
  fst (NoticeMonitor.fetchNotices (Sample.fine false Sample.clock) (boot [] []))
  = Returns [Sample.exam_notice; Sample.holiday_again; Sample.old_notice]
  /\ List.NoDup (List.map id (mergeNotices (Some Sample.news) (Some Sample.exams)))
  /\ lastWithId (IdNum 88888) (Sample.news ++ Sample.exams) = Some Sample.holiday_again.
Proof.
  destruct (fetchNotices_merges_by_id (Sample.fine false Sample.clock) (boot [] [])
              (Some Sample.news) (Some Sample.exams) eq_refl eq_refl)
    as (Hfetch & Hnodup & _ & Hlast & _).
  split; [exact Hfetch|]. split; [exact Hnodup|].
  apply (Hlast Sample.holiday_again). right. left. reflexivity.
Defined.

(** ** The filter chain *)

Lemma checkChain_keep checks i n :
  fst (checkChain checks i n) = List.forallb (fun check => check n) checks.
Proof.
  revert i. induction checks as [|check rest IH]; intros i; simpl; [reflexivity|].
  destruct (check n); simpl; [|reflexivity].
  specialize (IH (S i)). destruct (checkChain rest (S i) n). exact IH.
Qed.

(** The strategy at index [j] is called on a notice exactly when every
    strategy before it has approved the notice. *)
Lemma checkChain_called checks b n j :
  In j (snd (checkChain checks b n)) <->
  exists i, j = (b + i)%nat /\ (i < length checks)%nat
            /\ forall i' check, (i' < i)%nat -> checks !! i' = Some check -> check n = true.
Proof.
  revert b. induction checks as [|check rest IH]; intros b; simpl.
  - split; [intros []|intros (i & _ & Hlt & _); lia].
  - destruct (check n) eqn:Hc.
    + specialize (IH (S b)). destruct (checkChain rest (S b) n) as [keep called].
      simpl in *. rewrite IH. split.
      * intros [<-|(i & -> & Hlt & Hall)].
        -- exists 0%nat. split; [lia|]. split; [lia|]. intros; lia.
        -- exists (S i). split; [lia|]. split; [lia|].
           intros [|i'] c Hi' Hlook; simpl in Hlook; [congruence|].
           apply (Hall i'); [lia|exact Hlook].
      * intros ([|i] & -> & Hlt & Hall); [left; lia|right].
        exists i. split; [lia|]. split; [lia|].
        intros i' c Hi' Hlook. apply (Hall (S i')); [lia|exact Hlook].
    + simpl. split.
      * intros [<-|[]]. exists 0%nat. split; [lia|]. split; [lia|]. intros; lia.
      * intros ([|i] & -> & Hlt & Hall); [left; lia|].
        specialize (Hall 0%nat check). simpl in Hall.
        rewrite Hall in Hc; [discriminate|lia|reflexivity].
Qed.

Lemma applyFilters_results checks notices :
  fst (applyFilters checks notices) =
  List.filter (fun n => List.forallb (fun check => check n) checks) notices.
Proof.
  induction notices as [|n rest IH]; simpl; [reflexivity|].
  rewrite <- (checkChain_keep checks 0 n).
  destruct (checkChain checks 0 n) as [keep called].
  destruct (applyFilters checks rest) as [results calls]. simpl in *.
  rewrite <- IH. reflexivity.
Qed.

Lemma applyFilters_calls checks notices j n :
  In (j, n) (snd (applyFilters checks notices)) <->
  In n notices /\ In j (snd (checkChain checks 0 n)).
Proof.
  induction notices as [|n0 rest IH]; simpl; [tauto|].
  destruct (checkChain checks 0 n0) as [keep called] eqn:Hchain.
  destruct (applyFilters checks rest) as [results calls]. simpl in *.
  rewrite in_app_iff, IH, in_map_iff. split.
  - intros [(i & Heq & Hin)|[Hin Hj]]; [|tauto].
    inversion Heq; subst. rewrite Hchain. simpl. tauto.
  - intros [[->|Hin] Hj]; [|tauto].
    rewrite Hchain in Hj. left. exists j. tauto.
Qed.

Lemma forallb_Permutation {A} (f : A -> bool) l l' :
  Permutation l l' -> List.forallb f l = List.forallb f l'.
Proof.
  induction 1 as [|x l l' _ IH|x y l|l l' l'' _ IH1 _ IH2]; simpl.
  - reflexivity.
  - rewrite IH. reflexivity.
  - destruct (f x), (f y); reflexivity.
  - congruence.
Qed.

(** C4. The notices kept by [applyFilters] are those that every filter of the
    chain approves; for a notice that a filter rejects, no later filter of the
    chain is called; and the kept notices are the same for every permutation
    of the chain (the filters being functions of the notice).  The monitor's
    method is this loop over the [check]s of its strategies. *)
Theorem applyFilters_strict_and (checks : list (Notice -> bool)) (notices : list Notice) :
  (forall n, In n (fst (applyFilters checks notices)) <->
             In n notices /\ forall check, In check checks -> check n = true)
  /\ fst (applyFilters checks notices) =
     List.filter (fun n => List.forallb (fun check => check n) checks) notices
  /\ (forall i j check n,
        checks !! i = Some check -> check n = false -> (i < j)%nat ->
        ~ In (j, n) (snd (applyFilters checks notices)))
  /\ (forall checks', Permutation checks checks' ->
        fst (applyFilters checks' notices) = fst (applyFilters checks notices))
  /\ (forall o self s,
        fst (NoticeMonitor.applyFilters o self notices s) =
        Returns (fst (applyFilters
                        (List.map (Strategy_check o s) (NoticeMonitor.strategies self))
                        notices))).
Proof.
  split; [|split; [|split; [|split]]].
  - intros n. rewrite applyFilters_results, filter_In, forallb_forall. reflexivity.
  - apply applyFilters_results.
  - intros i j check n Hlook Hrej Hlt Hin.
    apply applyFilters_calls in Hin as [_ Hin].
    apply checkChain_called in Hin as (i0 & -> & _ & Hall).
    rewrite (Hall i check) in Hrej; [discriminate|lia|exact Hlook].
  - intros checks' Hperm. rewrite !applyFilters_results.
    apply filter_ext. intros n. symmetry. apply forallb_Permutation, Hperm.
  - intros o self s. unfold NoticeMonitor.applyFilters.
    destruct (applyFilters _ notices). reflexivity.
Qed.

(** ** The time filter *)


Lemma Date_ge_true a b :
  Date_ge a b = true <-> exists d c, a = Some d /\ b = Some c /\ c <= d.
Proof.
  unfold Date_ge. destruct a as [d|], b as [c|]; split;
    try discriminate; try (intros (d' & c' & ? & ? & ?); discriminate).
  - intros H. apply Z.leb_le in H. eauto.
  - intros (d' & c' & [= <-] & [= <-] & H). apply Z.leb_le, H.
Qed.

(** C5. [check] is true exactly when the notice's date parses to an instant
    that is not before the cutoff held by the filter: a notice dated at the
    cutoff is kept, an older one is dropped, and so is one whose date does not
    parse.  The cutoff is the field written by the constructor, from the clock
    at construction and the configured number of hours; [check] reads the
    field and no clock.  With the variable unset or empty, the number of hours
    is 24. *)
Theorem time_filter_inclusive_cutoff (Date_parse : jsstring -> option Z)
    (config : Config) (now : Z) (notice : Notice) :
  (forall hours, NOTICE_AGE_LIMIT_HOURS config = Some hours ->
     Z.abs (now - hours * 3600000) <= 8640000000000000 ->
     TimeFilterStrategy.cutoffDate (TimeFilterStrategy.new config now)
     = Some (now - hours * 3600000))
  /\ (TimeFilterStrategy.check Date_parse (TimeFilterStrategy.new config now) notice = true <->
      exists d c, Date_parse (date notice) = Some d
                  /\ TimeFilterStrategy.cutoffDate (TimeFilterStrategy.new config now) = Some c
                  /\ c <= d)
  /\ (forall self c,
        TimeFilterStrategy.cutoffDate self = Some c ->
        (Date_parse (date notice) = Some c ->
         TimeFilterStrategy.check Date_parse self notice = true)
        /\ (forall d, Date_parse (date notice) = Some d -> d < c ->
            TimeFilterStrategy.check Date_parse self notice = false)
        /\ (Date_parse (date notice) = None ->
            TimeFilterStrategy.check Date_parse self notice = false))
  /\ (forall self,
        TimeFilterStrategy.check Date_parse self notice =
        Date_ge (Date_parse (date notice)) (TimeFilterStrategy.cutoffDate self))
  /\ (forall e, env_NOTICE_AGE_LIMIT_HOURS e = None \/ env_NOTICE_AGE_LIMIT_HOURS e = Some [] ->
        NOTICE_AGE_LIMIT_HOURS (loadConfig e) = Some 24).
Proof.
  split; [|split; [|split; [|split]]].
  - intros hours Hh Hrange. unfold TimeFilterStrategy.new. simpl. rewrite Hh.
    replace (now - hours * 60 * 60 * 1000) with (now - hours * 3600000) by lia.
    unfold TimeClip. apply Z.leb_le in Hrange. rewrite Hrange. reflexivity.
  - unfold TimeFilterStrategy.check. apply Date_ge_true.
  - intros self c Hc. unfold TimeFilterStrategy.check. rewrite Hc.
    split; [|split].
    + intros ->. simpl. apply Z.leb_refl.
    + intros d -> Hlt. simpl. apply Z.leb_gt, Hlt.
    + intros ->. reflexivity.
  - reflexivity.
  - intros e [He|He]; unfold loadConfig; simpl; rewrite He; reflexivity.
Qed.

(** With the default of 24 hours, a notice dated exactly 24 hours before the
    clock is kept, and one dated a millisecond earlier is dropped. *)
Example cutoff_boundary :
  let self := TimeFilterStrategy.new (loadConfig (Sample.env false)) Sample.clock in
  TimeFilterStrategy.cutoffDate self = Some (Sample.clock - 86400000)
  /\ TimeFilterStrategy.check Sample.iso_parse self
       (mkNotice (IdNum 1) [] (lit "2025-03-09T09:00:00.000Z") []) = true
  /\ TimeFilterStrategy.check Sample.iso_parse self
       (mkNotice (IdNum 1) [] (lit "2025-03-09T08:59:59.999Z") []) = false.
Proof. repeat split; vm_compute; reflexivity. Qed.

(** ** The store *)

Lemma find_in_spec coll ids x :
  In x (database.find_in coll ids) <-> In x (List.map database.noticeId coll) /\ In x ids.
Proof.
  unfold database.find_in. rewrite !in_map_iff. split.
  - intros (d & <- & Hd). apply filter_In in Hd as [Hd Hin].
    apply bool_decide_eq_true_1, list_elem_of_In in Hin. eauto.
  - intros [(d & <- & Hd) Hin]. exists d. split; [reflexivity|].
    apply filter_In. split; [exact Hd|].
    apply bool_decide_eq_true_2, list_elem_of_In, Hin.
Qed.

Lemma insertUnordered_grows coll docs d :
  In d coll -> In d (fst (database.insertUnordered coll docs)).
Proof.
  revert coll. induction docs as [|d0 docs IH]; intros coll Hin; simpl; [exact Hin|].
  destruct (bool_decide _); simpl; [apply IH, Hin|].
  apply IH, in_or_app. left. exact Hin.
Qed.

(** Without a write error the collection gains the whole batch, in order. *)
Lemma insertUnordered_ok coll docs coll' :
  database.insertUnordered coll docs = (coll', false) -> coll' = coll ++ docs.
Proof.
  revert coll. induction docs as [|d docs IH]; intros coll; simpl.
  - intros [= <-]. rewrite app_nil_r. reflexivity.
  - destruct (bool_decide _); [discriminate|].
    intros H. apply IH in H. rewrite H, <- app_assoc. reflexivity.
Qed.


Lemma insertMany_grows reachable coll docs d :
  In d coll -> In d (fst (database.insertMany reachable coll docs)).
Proof.
  intros Hin. unfold database.insertMany.
  destruct (List.filter database.validates docs) as [|v valid]; [exact Hin|].
  destruct reachable; [|exact Hin].
  pose proof (insertUnordered_grows coll (v :: valid) d Hin) as Hg.
  destruct (database.insertUnordered coll (v :: valid)). exact Hg.
Qed.

(** ** [saveSentNotices] *)

Lemma saveSentNotices_eq o notices s :
  MongoPersistenceStrategy.saveSentNotices o notices s =
  match notices with
  | [] => (Returns tt,
           mkState (collection s) (outbox s) (existingIds s)
                   (calls s ++ [saveSentNotices_ notices]))
  | _ :: _ =>
      let r := database.insertMany (Notice_insertMany o) (collection s)
                 (List.map (MongoPersistenceStrategy.operation (Date_now o)) notices) in
      match snd r with
      | Some _ =>
          (Returns tt,
           mkState (fst r) (outbox s) (MongoPersistenceStrategy.addAll notices (existingIds s))
                   (calls s ++ [saveSentNotices_ notices]))
      | None =>
          (Returns tt,
           mkState (fst r) (outbox s) (existingIds s)
                   (calls s ++ [saveSentNotices_ notices; console_error_ BulkWriteError]))
      end
  end.
Proof.
  unfold MongoPersistenceStrategy.saveSentNotices, bind, called, try_catch, ret.
  destruct notices as [|n notices]; [reflexivity|].
  cbn [length Nat.eqb]. unfold MongoPersistenceStrategy.insertMany. cbn [collection].
  destruct (database.insertMany _ _ _) as [coll' [[]|]]; cbn.
  - reflexivity.
  - rewrite <- app_assoc. reflexivity.
Qed.

Lemma preload_eq o notices s :
  MongoPersistenceStrategy.preload o notices s =
  match notices with
  | [] => (Returns tt,
           mkState (collection s) (outbox s) (existingIds s) (calls s ++ [preload_ notices]))
  | _ :: _ =>
      if Notice_find o
      then (Returns tt,
            mkState (collection s) (outbox s)
                    (list_to_set (database.find_in (collection s)
                                    (List.map (fun n => String_ (id n)) notices)))
                    (calls s ++ [preload_ notices]))
      else (Throws QueryError,
            mkState (collection s) (outbox s) (existingIds s) (calls s ++ [preload_ notices]))
  end.
Proof.
  unfold MongoPersistenceStrategy.preload, bind, called, ret, throw, set_existingIds.
  destruct notices as [|n notices]; [reflexivity|].
  cbn [length Nat.eqb]. destruct (Notice_find o); reflexivity.
Qed.

Lemma check_false_iff s n :
  MongoPersistenceStrategy.check s n = false <-> String_ (id n) ∈ existingIds s.
Proof.
  unfold MongoPersistenceStrategy.check. rewrite negb_false_iff, bool_decide_eq_true.
  reflexivity.
Qed.

Lemma addAll_contains notices ids n :
  In n notices -> String_ (id n) ∈ MongoPersistenceStrategy.addAll notices ids.
Proof.
  intros Hin. unfold MongoPersistenceStrategy.addAll.
  apply elem_of_union_r, elem_of_list_to_set, list_elem_of_In.
  apply (in_map (fun n => String_ (id n))), Hin.
Qed.

(** C10. [saveSentNotices] returns normally on every input.  When the bulk
    insert throws, the error is logged and the membership set is left as it
    was, whatever part of the batch the store has written; so a notice whose
    record was written by the failed batch is still approved by [check]
    afterwards. *)
Theorem saveSentNotices_swallows_insert_errors :
  (forall o notices s,
     fst (MongoPersistenceStrategy.saveSentNotices o notices s) = Returns tt)
  /\ (forall o notices s,
        notices <> [] ->
        snd (database.insertMany (Notice_insertMany o) (collection s)
               (List.map (MongoPersistenceStrategy.operation (Date_now o)) notices)) = None ->
        existingIds (snd (MongoPersistenceStrategy.saveSentNotices o notices s))
        = existingIds s
        /\ calls (snd (MongoPersistenceStrategy.saveSentNotices o notices s))
           = calls s ++ [saveSentNotices_ notices; console_error_ BulkWriteError]
        /\ collection (snd (MongoPersistenceStrategy.saveSentNotices o notices s))
           = fst (database.insertMany (Notice_insertMany o) (collection s)
                    (List.map (MongoPersistenceStrategy.operation (Date_now o)) notices)))
  /\ (exists o notices s n,
        In n notices
        /\ snd (database.insertMany (Notice_insertMany o) (collection s)
                  (List.map (MongoPersistenceStrategy.operation (Date_now o)) notices)) = None
        /\ ~ In (String_ (id n)) (List.map database.noticeId (collection s))
        /\ In (MongoPersistenceStrategy.operation (Date_now o) n)
              (collection (snd (MongoPersistenceStrategy.saveSentNotices o notices s)))
        /\ MongoPersistenceStrategy.check
             (snd (MongoPersistenceStrategy.saveSentNotices o notices s)) n = true).
Proof.
  split; [|split].
  - intros o notices s. rewrite saveSentNotices_eq.
    destruct notices; [reflexivity|]. cbv zeta.
    destruct (snd _) as [[]|]; reflexivity.
  - intros o notices s Hne Hthrew. rewrite saveSentNotices_eq.
    destruct notices; [congruence|]. cbv zeta. rewrite Hthrew. auto.
  - exists (Sample.fine false Sample.clock),
           [Sample.exam_notice; Sample.exam_numbered], (boot [] []), Sample.exam_notice.
    split; [left; reflexivity|].
    split; [vm_compute; reflexivity|].
    split; [intros []|].
    split; [vm_compute; left; reflexivity|].
    vm_compute. reflexivity.
Qed.

Lemma preload_knows o notices s n :
  In n notices ->
  In (String_ (id n)) (List.map database.noticeId (collection s)) ->
  fst (MongoPersistenceStrategy.preload o notices s) = Returns tt ->
  MongoPersistenceStrategy.check (snd (MongoPersistenceStrategy.preload o notices s)) n = false.
Proof.
  intros Hin Hstored. rewrite preload_eq. destruct notices as [|n0 notices]; [destruct Hin|].
  destruct (Notice_find o); [|discriminate]. intros _.
  apply check_false_iff. cbn [snd existingIds].
  apply elem_of_list_to_set, list_elem_of_In, find_in_spec.
  split; [exact Hstored|]. apply (in_map (fun n => String_ (id n))), Hin.
Qed.

(** C6, as the code has it.  When the insert throws (here the store is
    away), [saveSentNotices([n])] returns all the same and [check(n)] is still
    true afterwards. *)
Lemma check_true_after_failed_save :
  fst (MongoPersistenceStrategy.saveSentNotices Sample.store_down [Sample.exam_notice]
         (boot [] [])) = Returns tt
  /\ MongoPersistenceStrategy.check
       (snd (MongoPersistenceStrategy.saveSentNotices Sample.store_down [Sample.exam_notice]
               (boot [] [])))
       Sample.exam_notice = true.
Proof. split; vm_compute; reflexivity. Qed.

(** C6, amended.  After a [saveSentNotices([n])] whose bulk insert did not
    throw, [check(n)] is false in the same run; a notice that satisfies the
    schema then has its record in the store; and in any later process, once
    [preload] over a list that contains [n] has read a store that holds a
    record under the id of [n], [check(n)] is false. *)
Theorem check_after_successful_save (o : Outside) (n : Notice) (s : State) :
  snd (database.insertMany (Notice_insertMany o) (collection s)
         [MongoPersistenceStrategy.operation (Date_now o) n]) = Some tt ->
  fst (MongoPersistenceStrategy.saveSentNotices o [n] s) = Returns tt
  /\ MongoPersistenceStrategy.check
       (snd (MongoPersistenceStrategy.saveSentNotices o [n] s)) n = false
  /\ (database.validates (MongoPersistenceStrategy.operation (Date_now o) n) = true ->
      In (MongoPersistenceStrategy.operation (Date_now o) n)
         (collection (snd (MongoPersistenceStrategy.saveSentNotices o [n] s))))
  /\ (forall o' notices s',
        In n notices ->
        In (String_ (id n)) (List.map database.noticeId (collection s')) ->
        fst (MongoPersistenceStrategy.preload o' notices s') = Returns tt ->
        MongoPersistenceStrategy.check
          (snd (MongoPersistenceStrategy.preload o' notices s')) n = false).
Proof.
  intros Hok. rewrite saveSentNotices_eq. cbv zeta. cbn [List.map]. rewrite Hok.
  split; [reflexivity|]. split; [|split].
  - apply check_false_iff. cbn [snd existingIds].
    apply addAll_contains. left. reflexivity.
  - intros Hvalid. cbn [snd collection]. revert Hok.
    unfold database.insertMany. cbn [List.filter]. rewrite Hvalid.
    destruct (Notice_insertMany o); [|discriminate]. cbn [database.insertUnordered].
    destruct (bool_decide _); [discriminate|]. intros _. cbn [fst].
    apply in_or_app. right. left. reflexivity.
  - intros o' notices s'. apply preload_knows.
Qed.

Lemma check_after_successful_save_witness :
  fst (MongoPersistenceStrategy.saveSentNotices (Sample.fine false Sample.clock)
         [Sample.exam_notice] (boot [] [])) = Returns tt
  /\ MongoPersistenceStrategy.check
       (snd (MongoPersistenceStrategy.saveSentNotices (Sample.fine false Sample.clock)
               [Sample.exam_notice] (boot [] []))) Sample.exam_notice = false.
Proof.
  destruct (check_after_successful_save (Sample.fine false Sample.clock)
              Sample.exam_notice (boot [] [])) as (Hret & Hcheck & _).
  - vm_compute. reflexivity.
  - split; [exact Hret|exact Hcheck].
Defined.

(** ** The run *)

Lemma init_eq o config s :
  MongoPersistenceStrategy.init o config s =
  match MONGO_URI config with
  | Some (_ :: _) =>
      if mongoose_connect o
      then (Returns tt, mkState (collection s) (outbox s) (existingIds s) (calls s ++ [init_]))
      else (Throws ConnectError,
            mkState (collection s) (outbox s) (existingIds s)
                    (calls s ++ [init_; console_error_ ConnectError]))
  | _ => (Throws MONGO_URI_not_defined,
          mkState (collection s) (outbox s) (existingIds s) (calls s ++ [init_]))
  end.
Proof.
  unfold MongoPersistenceStrategy.init, connectDB, bind, called, ret, throw. cbn.
  destruct (MONGO_URI config) as [[|c uri]|]; try reflexivity.
  destruct (mongoose_connect o); cbn; [reflexivity|].
  rewrite <- app_assoc. reflexivity.
Qed.

Lemma cleanup_eq o s :
  MongoPersistenceStrategy.cleanup o s =
  (if mongoose_disconnect o then Returns tt else Throws DisconnectError,
   mkState (collection s) (outbox s) (existingIds s) (calls s ++ [cleanup_])).
Proof.
  unfold MongoPersistenceStrategy.cleanup, disconnectDB, bind, called, ret, throw. cbn.
  destruct (mongoose_disconnect o); reflexivity.
Qed.

Lemma fetchNotices_eq o s :
  NoticeMonitor.fetchNotices o s =
  (match axios_get_NEWS o, axios_get_EXAM o with
   | Resolved newsData, Resolved examData => Returns (mergeNotices newsData examData)
   | _, _ => Throws TransportError
   end,
   mkState (collection s) (outbox s) (existingIds s) (calls s ++ [fetchNotices_])).
Proof.
  unfold NoticeMonitor.fetchNotices, bind, called, ret, throw. cbn.
  destruct (axios_get_NEWS o), (axios_get_EXAM o); reflexivity.
Qed.

Lemma applyFilters_eq o self notices s :
  NoticeMonitor.applyFilters o self notices s =
  (Returns (fst (applyFilters (List.map (Strategy_check o s) (NoticeMonitor.strategies self))
                              notices)),
   mkState (collection s) (outbox s) (existingIds s)
           (calls s ++ NoticeMonitor.checkCalls
                         (snd (applyFilters
                                 (List.map (Strategy_check o s) (NoticeMonitor.strategies self))
                                 notices)))).
Proof.
  unfold NoticeMonitor.applyFilters. destruct (applyFilters _ notices). reflexivity.
Qed.

Lemma sendEmail_eq o config notices s :
  NoticeMonitor.sendEmail o config notices s =
  match resend_emails_send o with
  | Delivered =>
      (Returns tt,
       mkState (collection s)
               (outbox s ++
                [{| critical := List.existsb snd
                                  (List.map (fun n => (n, ContentFilterStrategy.check n)) notices);
                    test_prefix := TEST_MODE config;
                    cards := List.map (fun n => (n, ContentFilterStrategy.check n)) notices |}])
               (existingIds s) (calls s ++ [sendEmail_ notices]))
  | AnswersError =>
      (Throws EmailSendingFailed,
       mkState (collection s) (outbox s) (existingIds s)
               (calls s ++ [sendEmail_ notices; console_error_ EmailSendingFailed;
                            console_error_ EmailSendingFailed]))
  | SendRejects =>
      (Throws EmailClientError,
       mkState (collection s) (outbox s) (existingIds s)
               (calls s ++ [sendEmail_ notices; console_error_ EmailClientError]))
  end.
Proof.
  unfold NoticeMonitor.sendEmail, bind, called, try_catch, throw, NoticeMonitor.deliver.
  cbn. destruct (resend_emails_send o); cbn; rewrite <- ?app_assoc; reflexivity.
Qed.

Lemma checkCalls_In made c :
  In c (NoticeMonitor.checkCalls made) -> exists i n, c = check_ i n.
Proof.
  unfold NoticeMonitor.checkCalls. rewrite in_map_iff.
  intros ([i n] & <- & _). eauto.
Qed.

(** Symbolic execution of [run]: unfold the combinators, rewrite each step
    with its equation, and split on what the outside answers. *)
Ltac run_step :=
  match goal with
  | |- context [MongoPersistenceStrategy.init ?o ?c ?s] => rewrite (init_eq o c s)
  | |- context [NoticeMonitor.fetchNotices ?o ?s] => rewrite (fetchNotices_eq o s)
  | |- context [MongoPersistenceStrategy.preload ?o ?l ?s] => rewrite (preload_eq o l s)
  | |- context [NoticeMonitor.applyFilters ?o ?m ?l ?s] => rewrite (applyFilters_eq o m l s)
  | |- context [NoticeMonitor.sendEmail ?o ?c ?l ?s] => rewrite (sendEmail_eq o c l s)
  | |- context [MongoPersistenceStrategy.saveSentNotices ?o ?l ?s] =>
      rewrite (saveSentNotices_eq o l s)
  | |- context [MongoPersistenceStrategy.cleanup ?o ?s] => rewrite (cleanup_eq o s)
  end.

Ltac run_unfold :=
  unfold NoticeMonitor.run, NoticeMonitor.attempt, NoticeMonitor.noticesToSeed,
    try_catch_finally, try_catch, bind, ret, throw, called, process_exit.

Ltac run_case :=
  match goal with
  | |- context [match ?x with _ => _ end] =>
      lazymatch x with
      | context [match _ with _ => _ end] => fail
      | _ => destruct x eqn:?
      end
  | |- context [if ?x then _ else _] =>
      lazymatch x with
      | context [if _ then _ else _] => fail
      | context [match _ with _ => _ end] => fail
      | _ => destruct x eqn:?
      end
  end.

Ltac run_steps :=
  repeat (first [ run_step
                | progress cbn [fst snd collection outbox existingIds calls length
                                Nat.ltb Nat.leb andb negb]
                | run_case ]).

Ltac run_exec := run_unfold; run_steps.

(** [run] in terms of its [try] block. *)
Lemma run_eq o config self s :
  NoticeMonitor.run o config self s =
  match NoticeMonitor.attempt o config self s with
  | (Returns _, s') =>
      if NoticeMonitor.persistence self then MongoPersistenceStrategy.cleanup o s'
      else (Returns tt, s')
  | (Throws e, s') => (Exits 1, logged s' [console_error_ e; process_exit_ 1])
  | (Exits code, s') => (Exits code, s')
  end.
Proof.
  unfold NoticeMonitor.run, try_catch_finally, try_catch, bind, called, process_exit, logged.
  destruct (NoticeMonitor.attempt o config self s) as [[[]|e|code] s']; cbn.
  - destruct (NoticeMonitor.persistence self); reflexivity.
  - rewrite <- app_assoc. reflexivity.
  - reflexivity.
Qed.

Ltac call_cases H :=
  repeat (rewrite in_app_iff in H);
  cbn [In app] in H;
  repeat match goal with
         | H : _ \/ _ |- _ => destruct H as [H|H]
         | H : False |- _ => destruct H
         | H : In _ (NoticeMonitor.checkCalls _) |- _ =>
             apply checkCalls_In in H as (? & ? & ?)
         end.

(** A run that is not a seed run and whose send fails changes neither the
    store nor the outbox, does not call [saveSentNotices], and exits with
    status 1 once [sendEmail] has been called. *)
Lemma failed_send_frame (o : Outside) (config : Config)
    (self : NoticeMonitor.t) (s : State) :
  SEED_MODE config = false ->
  resend_emails_send o <> Delivered ->
  collection (snd (NoticeMonitor.run o config self s)) = collection s
  /\ outbox (snd (NoticeMonitor.run o config self s)) = outbox s
  /\ exists new,
       calls (snd (NoticeMonitor.run o config self s)) = calls s ++ new
       /\ (forall notices, ~ In (saveSentNotices_ notices) new)
       /\ (forall notices, In (sendEmail_ notices) new ->
             fst (NoticeMonitor.run o config self s) = Exits 1).
Proof.
  intros Hseed Hsend. rewrite (surjective_pairing (NoticeMonitor.run o config self s)).
  run_exec.
  all: try congruence.
  all: split; [reflexivity|split; [reflexivity|]].
  all: eexists; split; [rewrite <- ?app_assoc; reflexivity|].
  all: split; intros notices Hin; call_cases Hin; try discriminate; try reflexivity.
Qed.

Ltac attempt_exec :=
  unfold NoticeMonitor.attempt, NoticeMonitor.noticesToSeed, bind, ret, throw; run_steps.

(** The [try] block neither leaves the process nor calls [cleanup]. *)
Lemma attempt_calls o config self s :
  (forall code, fst (NoticeMonitor.attempt o config self s) <> Exits code)
  /\ exists new,
       calls (snd (NoticeMonitor.attempt o config self s)) = calls s ++ new
       /\ ~ In cleanup_ new.
Proof.
  attempt_exec.
  all: split; [intros code; discriminate|].
  all: eexists; split; [rewrite <- ?app_assoc; reflexivity|].
  all: intros Hin; call_cases Hin; discriminate.
Qed.

(** C2, on the code.  With the connection string missing, [init] throws, the
    handler logs the error and calls [process.exit(1)], and the process is gone
    before the finalizer: [cleanup] is not called.  The same holds in every
    run of a monitor with a persistence object: when a step of the [try] block
    throws, the process exits with status 1 and [cleanup] is not among the
    calls made; when no step throws, [cleanup] is the last call made. *)
Theorem failed_run_exits_before_cleanup :
  (fst (main Sample.no_uri (boot [] [])) = Exits 1
   /\ calls (snd (main Sample.no_uri (boot [] []))) =
      [init_; console_error_ MONGO_URI_not_defined; process_exit_ 1]
   /\ ~ In cleanup_ (calls (snd (main Sample.no_uri (boot [] [])))))
  /\ (forall o config self s,
        NoticeMonitor.persistence self = true ->
        match fst (NoticeMonitor.attempt o config self s) with
        | Throws e =>
            fst (NoticeMonitor.run o config self s) = Exits 1
            /\ exists new,
                 calls (snd (NoticeMonitor.run o config self s)) = calls s ++ new
                 /\ ~ In cleanup_ new
        | _ =>
            exists new,
              calls (snd (NoticeMonitor.run o config self s)) = calls s ++ new ++ [cleanup_]
        end).
Proof.
  split.
  - split; [vm_compute; reflexivity|]. split; [vm_compute; reflexivity|].
    vm_compute. intros [H|[H|[H|[]]]]; discriminate.
  - intros o config self s Hpers. rewrite run_eq, Hpers.
    destruct (attempt_calls o config self s) as (Hexit & new & Hcalls & Hno).
    destruct (NoticeMonitor.attempt o config self s) as [[[]|e|code] s'];
      cbn [fst snd] in *.
    + rewrite cleanup_eq. cbn [snd calls]. exists new. rewrite Hcalls, app_assoc. reflexivity.
    + split; [reflexivity|]. exists (new ++ [console_error_ e; process_exit_ 1]).
      cbn [logged calls]. rewrite Hcalls, app_assoc. split; [reflexivity|].
      intros Hin. apply in_app_or in Hin as [Hin|Hin]; [exact (Hno Hin)|].
      call_cases Hin; discriminate.
    + exfalso. exact (Hexit code eq_refl).
Qed.

(** What the finalizer and the handler add to the [try] block. *)
Lemma run_after_attempt o config self s :
  collection (snd (NoticeMonitor.run o config self s))
  = collection (snd (NoticeMonitor.attempt o config self s))
  /\ outbox (snd (NoticeMonitor.run o config self s))
     = outbox (snd (NoticeMonitor.attempt o config self s))
  /\ exists tail,
       calls (snd (NoticeMonitor.run o config self s))
       = calls (snd (NoticeMonitor.attempt o config self s)) ++ tail
       /\ forall c, In c tail ->
            c = cleanup_ \/ c = process_exit_ 1 \/ exists e, c = console_error_ e.
Proof.
  rewrite run_eq.
  destruct (NoticeMonitor.attempt o config self s) as [[[]|e|code] s']; cbn [fst snd].
  - destruct (NoticeMonitor.persistence self).
    + rewrite cleanup_eq. cbn. split; [reflexivity|]. split; [reflexivity|].
      exists [cleanup_]. split; [reflexivity|]. intros c [<-|[]]. auto.
    + cbn. split; [reflexivity|]. split; [reflexivity|].
      exists []. rewrite app_nil_r. split; [reflexivity|]. intros c [].
  - cbn. split; [reflexivity|]. split; [reflexivity|].
    eexists. split; [reflexivity|]. intros c [<-|[<-|[]]]; eauto.
  - split; [reflexivity|]. split; [reflexivity|].
    exists []. rewrite app_nil_r. split; [reflexivity|]. intros c [].
Qed.


(** After [preload], the membership set answers for the fetched notices as
    the store does. *)
Lemma preloaded_membership coll (notices : list Notice) n :
  In n notices ->
  bool_decide (String_ (id n) ∈
     (list_to_set (database.find_in coll (List.map (fun n => String_ (id n)) notices))
      : gset jsstring))
  = recorded coll n.
Proof.
  intros Hin. apply bool_decide_ext.
  rewrite elem_of_list_to_set, !list_elem_of_In, find_in_spec.
  split; [tauto|]. intros H. split; [exact H|].
  apply (in_map (fun n => String_ (id n))), Hin.
Qed.





(** ** Two runs in a row *)

Lemma relevant_eq o self coll out ids calls0 notices :
  (forall n, In n notices -> bool_decide (String_ (id n) ∈ ids) = recorded coll n) ->
  fst (applyFilters
         (List.map (Strategy_check o (mkState coll out ids calls0))
                   [TimeFilter self; Persistence])
         notices)
  = List.filter (fun n => TimeFilterStrategy.check (Date_parse o) self n
                          && negb (recorded coll n)) notices.
Proof.
  intros Hknown. rewrite applyFilters_results. apply filter_ext_in. intros n Hn.
  cbn [List.map List.forallb Strategy_check]. unfold MongoPersistenceStrategy.check.
  cbn [existingIds]. rewrite (Hknown n Hn), andb_true_r. reflexivity.
Qed.

Ltac no_send Hin := cbn in Hin; call_cases Hin; discriminate.

(** What a normal run mails is the set of fetched notices that are recent
    and have no record in the store. *)
Lemma normal_run_sends o coll out sent :
  TEST_MODE (loadConfig (process_env o)) = false ->
  SEED_MODE (loadConfig (process_env o)) = false ->
  In (sendEmail_ sent) (calls (snd (main o (boot coll out)))) ->
  exists newsData examData,
    axios_get_NEWS o = Resolved newsData
    /\ axios_get_EXAM o = Resolved examData
    /\ sent <> []
    /\ sent = List.filter
                (fun n => TimeFilterStrategy.check (Date_parse o)
                            (TimeFilterStrategy.new (loadConfig (process_env o)) (Date_now o)) n
                          && negb (recorded coll n))
                (sort (byDate (Date_parse o)) (mergeNotices newsData examData)).
Proof.
  intros Htest Hseed.
  destruct (run_after_attempt o (loadConfig (process_env o))
              (monitor o (loadConfig (process_env o))) (boot coll out))
    as (_ & _ & tail & Hcalls & Htail).
  unfold main. rewrite Hcalls. clear Hcalls.
  intros Hin. apply in_app_or in Hin as [Hin|Hin];
    [|apply Htail in Hin as [H|[H|[e H]]]; discriminate].
  revert Hin. unfold NoticeMonitor.attempt, bind, ret.
  unfold monitor, configured_strategies.
  rewrite Hseed, Htest. cbn [negb andb NoticeMonitor.persistence NoticeMonitor.strategies].
  rewrite init_eq.
  destruct (MONGO_URI _) as [[|c uri]|]; [intros Hin; no_send Hin| |intros Hin; no_send Hin].
  destruct (mongoose_connect o); [|intros Hin; no_send Hin].
  rewrite fetchNotices_eq.
  destruct (axios_get_NEWS o) as [|newsData]; [intros Hin; no_send Hin|].
  destruct (axios_get_EXAM o) as [|examData]; [intros Hin; no_send Hin|].
  cbn [fst snd]. rewrite preload_eq.
  set (fetched := sort (byDate (Date_parse o)) (mergeNotices newsData examData)).
  set (self := TimeFilterStrategy.new (loadConfig (process_env o)) (Date_now o)).
  intros Hin. exists newsData, examData. split; [reflexivity|]. split; [reflexivity|].
  revert Hin. destruct fetched as [|n0 fetched0] eqn:Hfetched.
  { intros Hin. no_send Hin. }
  rewrite <- Hfetched. destruct (Notice_find o); [|intros Hin; no_send Hin].
  rewrite applyFilters_eq. cbn [fst snd collection outbox existingIds calls boot].
  cbn [NoticeMonitor.strategies].
  rewrite relevant_eq by (intros n Hn; apply preloaded_membership, Hn).
  destruct (List.filter _ fetched) as [|r0 relevant0] eqn:Hrel.
  { intros Hin. no_send Hin. }
  cbn [length Nat.ltb Nat.leb]. rewrite sendEmail_eq.
  destruct (resend_emails_send o); cbn [fst snd].
  - rewrite saveSentNotices_eq. cbv zeta.
    destruct (snd (database.insertMany _ _ _)); cbn [snd calls]; intros Hin;
      call_cases Hin; try discriminate;
      inversion Hin; (split; [discriminate|symmetry; exact Hrel]).
  - cbn [calls]. intros Hin; call_cases Hin; try discriminate;
      inversion Hin; (split; [discriminate|symmetry; exact Hrel]).
  - cbn [calls]. intros Hin; call_cases Hin; try discriminate;
      inversion Hin; (split; [discriminate|symmetry; exact Hrel]).
Qed.

Ltac find_call :=
  cbn [app];
  first [ left; reflexivity
        | right; find_call
        | apply in_or_app; left; find_call
        | apply in_or_app; right; find_call ].





Lemma recorded_true coll n :
  recorded coll n = true <-> In (String_ (id n)) (List.map database.noticeId coll).
Proof. unfold recorded. rewrite bool_decide_eq_true, list_elem_of_In. reflexivity. Qed.


Lemma filter_none {A} (f : A -> bool) l :
  (forall x, In x l -> f x = false) -> List.filter f l = [].
Proof.
  induction l as [|x l IH]; intros Hall; simpl; [reflexivity|].
  rewrite (Hall x); [|left; reflexivity]. apply IH. intros y Hy. apply Hall. right. exact Hy.
Qed.


(** ** A normal run, end to end *)

(** Three notices after the merge, one of them forty hours old: the run mails
    the two recent ones in one message with the critical subject, and records
    these two and not the old one. *)
Example normal_run_scenario :
  fst (main (Sample.fine false Sample.clock) (boot [] [])) = Returns tt
  /\ List.map (fun e => (critical e, List.map snd (cards e), List.map fst (cards e)))
       (outbox Sample.after_first_run)
     = [(true, [false; true], [Sample.holiday_again; Sample.exam_notice])]
  /\ List.map subject (outbox Sample.after_first_run)
     = [[55357; 57000]%N ++ lit " CRITICAL: 6th Sem Exam Notice Detected!"]
  /\ List.map database.noticeId (collection Sample.after_first_run)
     = [lit "88888"; lit "99999"]
  /\ recorded (collection Sample.after_first_run) Sample.old_notice = false.
Proof. repeat split; vm_compute; reflexivity. Qed.

(** * Further properties of the code *)

(** ** [cleanUrl] *)

Lemma cleanUrl_Some s :
  cleanUrl (Some s) = List.filter (fun c => negb (is_quote_or_space c)) s.
Proof. destruct s; reflexivity. Qed.

(** X1. [cleanUrl] drops the quotes and the white space and nothing else:
    its result holds none of them, a string that holds none is returned as it
    is, the cleaning goes through a concatenation, and cleaning twice is
    cleaning once.  A missing or empty variable gives the empty string. *)
Theorem cleanUrl_strips_quotes_and_space (s t : jsstring) :
  (forall c, In c (cleanUrl (Some s)) -> In c s /\ is_quote_or_space c = false)
  /\ (forall c, In c s -> is_quote_or_space c = false -> In c (cleanUrl (Some s)))
  /\ ((forall c, In c s -> is_quote_or_space c = false) -> cleanUrl (Some s) = s)
  /\ cleanUrl (Some (s ++ t)) = cleanUrl (Some s) ++ cleanUrl (Some t)
  /\ cleanUrl (Some (cleanUrl (Some s))) = cleanUrl (Some s)
  /\ cleanUrl None = [] /\ cleanUrl (Some []) = [].
Proof.
  rewrite !cleanUrl_Some.
  split; [|split; [|split; [|split; [|split]]]].
  - intros c Hc. apply filter_In in Hc as [Hin Hc].
    split; [exact Hin|]. apply negb_true_iff, Hc.
  - intros c Hin Hc. apply filter_In. split; [exact Hin|]. rewrite Hc. reflexivity.
  - intros Hclean. induction s as [|c s IH]; [reflexivity|]. simpl.
    rewrite (Hclean c); [|left; reflexivity]. simpl. f_equal.
    apply IH. intros c' Hc'. apply Hclean. right. exact Hc'.
  - apply List.filter_app.
  - induction s as [|c s IH]; [reflexivity|]. simpl.
    destruct (is_quote_or_space c) eqn:Hc; simpl; [exact IH|].
    rewrite Hc. simpl. f_equal. exact IH.
  - split; reflexivity.
Qed.

(** ** [parseInt] and the age limit *)

Lemma digits_cons acc c s :
  is_digit c = true -> digits acc (c :: s) = digits (10 * acc + (Z.of_N c - 48)) s.
Proof. intros Hc. simpl. rewrite Hc. reflexivity. Qed.

Lemma digits_acc d acc rest :
  digits (Z.pos acc) (uint_units d ++ rest) = digits (Z.pos (Pos.of_uint_acc d acc)) rest.
Proof.
  revert acc. induction d; intros acc; cbn [uint_units app Pos.of_uint_acc];
    [reflexivity|..];
    rewrite digits_cons by reflexivity; rewrite <- IHd; f_equal;
    simpl (Z.of_N _); lia.
Qed.

Lemma digits_uint d rest :
  digits 0 (uint_units d ++ rest) = digits (Z.of_N (Pos.of_uint d)) rest.
Proof.
  induction d; cbn [uint_units app Pos.of_uint];
    [reflexivity|..];
    rewrite digits_cons by reflexivity; simpl (Z.of_N _); simpl (10 * 0 + _);
    [exact IHd|..]; apply (digits_acc d).
Qed.

(** What may follow the digits: nothing, or a code unit that is no digit. *)
Lemma digits_stop v rest :
  match rest with c :: _ => is_digit c = false | [] => True end ->
  digits v rest = v.
Proof. destruct rest as [|c rest]; [reflexivity|]. simpl. intros ->. reflexivity. Qed.

Lemma parseInt10_uint d rest :
  d <> Decimal.Nil ->
  parseInt10 (uint_units d ++ rest) = Some (digits 0 (uint_units d ++ rest))
  /\ parseInt10 (45%N :: uint_units d ++ rest) = Some (- digits 0 (uint_units d ++ rest)).
Proof.
  intros Hd. destruct d; [congruence| | | | | | | | | |];
    (split; [|f_equal; unfold parseInt10; cbn [skip_space RegExp.is_space];
              cbn -[digits Z.mul]; f_equal; lia]);
    unfold parseInt10; cbn -[digits Z.mul]; f_equal; lia.
Qed.

Lemma skip_space_spaces ws s :
  (forall c, In c ws -> RegExp.is_space c = true) ->
  skip_space (ws ++ s) = skip_space s.
Proof.
  induction ws as [|c ws IH]; intros Hws; [reflexivity|]. simpl.
  rewrite (Hws c); [|left; reflexivity]. apply IH. intros c' Hc'. apply Hws. right. exact Hc'.
Qed.

(** X2. [parseInt(s, 10)] reads back what [String] prints: for every integer
    [n] that a number holds exactly (up to [2^53] in absolute value), the
    decimal text of [n], followed by nothing or by any text that does not
    start with a digit, and preceded by any white space, parses to [n].  So an
    age limit written in decimal, with or without a unit behind it, is the
    configured number of hours. *)
Theorem parseInt_reads_decimal (n : Z) (ws rest : jsstring) :
  Z.abs n <= 2 ^ 53 ->
  (forall c, In c ws -> RegExp.is_space c = true) ->
  match rest with c :: _ => is_digit c = false | [] => True end ->
  parseInt10 (ws ++ String_ (IdNum n) ++ rest) = Some n
  /\ (forall e,
        env_NOTICE_AGE_LIMIT_HOURS e = Some (String_ (IdNum n) ++ rest) ->
        NOTICE_AGE_LIMIT_HOURS (loadConfig e) = Some n).
Proof.
  intros _ Hws Hrest.
  assert (Hparse : parseInt10 (String_ (IdNum n) ++ rest) = Some n).
  { unfold String_. pose proof (DecimalZ.of_to n) as Hn. unfold Z.of_int, Z.of_uint in Hn.
    destruct n as [|p|p]; cbn [Z.to_int] in *.
    - cbn [uint_units app]. unfold parseInt10. cbn -[digits Z.mul].
      cbn [digits is_digit N.leb N.compare Pos.compare Pos.compare_cont andb].
      rewrite (digits_stop _ rest Hrest). reflexivity.
    - destruct (parseInt10_uint (Pos.to_uint p) rest
                  (DecimalPos.Unsigned.to_uint_nonnil p)) as [-> _].
      rewrite digits_uint, (digits_stop _ rest Hrest), Hn. reflexivity.
    - destruct (parseInt10_uint (Pos.to_uint p) rest
                  (DecimalPos.Unsigned.to_uint_nonnil p)) as [_ H].
      cbn [app]. rewrite H, digits_uint, (digits_stop _ rest Hrest).
      f_equal. lia. }
  split.
  - unfold parseInt10. rewrite (skip_space_spaces ws _ Hws). exact Hparse.
  - intros e He. unfold loadConfig. cbn [NOTICE_AGE_LIMIT_HOURS]. rewrite He.
    replace (or_default (Some (String_ (IdNum n) ++ rest)) (lit "24"))
      with (String_ (IdNum n) ++ rest); [exact Hparse|].
    destruct (String_ (IdNum n) ++ rest) as [|c s]; [discriminate Hparse|reflexivity].
Qed.

Lemma parseInt_reads_decimal_witness :
  parseInt10 (lit "  48h") = Some 48
  /\ NOTICE_AGE_LIMIT_HOURS
       (loadConfig {| env_MONGO_URI := None; env_TEST_MODE := None; env_SEED_MODE := None;
                      env_NOTICE_AGE_LIMIT_HOURS := Some (lit "48h") |}) = Some 48.
Proof.
  destruct (parseInt_reads_decimal 48 (lit "  ") (lit "h")) as [Hparse Hconfig].
  - vm_compute. discriminate.
  - intros c Hc. vm_compute in Hc. destruct Hc as [<-|[<-|[]]]; reflexivity.
  - reflexivity.
  - split; [exact Hparse|]. apply Hconfig. reflexivity.
Defined.

(** ** The order of the merge *)

Section JsMapOrder.
Context {K V : Type} `{EqDecision K}.
Implicit Types (m entries : list (K * V)).

Lemma Map_set_new k v m :
  ~ In k (List.map fst m) -> Map_set k v m = m ++ [(k, v)].
Proof.
  induction m as [|[k' v'] m IH]; simpl; intros Hnew; [reflexivity|].
  destruct (decide (k = k')) as [->|Hne]; [tauto|].
  rewrite IH; [reflexivity|tauto].
Qed.

Lemma Map_set_old k v m :
  In k (List.map fst m) -> List.map fst (Map_set k v m) = List.map fst m.
Proof.
  induction m as [|[k' v'] m IH]; simpl; intros Hold; [destruct Hold|].
  destruct (decide (k = k')) as [->|Hne]; [reflexivity|].
  simpl. rewrite IH; [reflexivity|]. destruct Hold; [congruence|assumption].
Qed.

Lemma fold_Map_set_fresh entries m :
  List.NoDup (List.map fst entries) ->
  (forall k, In k (List.map fst entries) -> ~ In k (List.map fst m)) ->
  List.fold_left (fun m kv => Map_set (fst kv) (snd kv) m) entries m = m ++ entries.
Proof.
  revert m. induction entries as [|[k v] entries IH]; intros m Hnd Hfresh; simpl.
  - rewrite app_nil_r. reflexivity.
  - inversion Hnd as [|? ? Hnotin Hnd']; subst.
    rewrite Map_set_new by (apply Hfresh; left; reflexivity).
    rewrite IH, <- app_assoc; [reflexivity|exact Hnd'|].
    intros k' Hk'. rewrite List.map_app, in_app_iff. simpl. intros [Hin|[<-|[]]].
    + apply (Hfresh k'); [right; exact Hk'|exact Hin].
    + contradiction.
Qed.

(** The keys of [new Map(entries)], in order: each key where it first occurs. *)
Lemma fold_Map_set_keys entries m :
  List.map fst (List.fold_left (fun m kv => Map_set (fst kv) (snd kv) m) entries m)
  = List.fold_left (fun ks k => if bool_decide (k ∈ ks) then ks else ks ++ [k])
                   (List.map fst entries) (List.map fst m).
Proof.
  revert m. induction entries as [|[k v] entries IH]; intros m; simpl; [reflexivity|].
  rewrite IH. f_equal. destruct (bool_decide (k ∈ List.map fst m)) eqn:Hk.
  - apply bool_decide_eq_true_1, list_elem_of_In in Hk. apply Map_set_old, Hk.
  - apply bool_decide_eq_false_1 in Hk. rewrite list_elem_of_In in Hk.
    rewrite Map_set_new by exact Hk. rewrite List.map_app. reflexivity.
Qed.
End JsMapOrder.

Lemma first_occurrences_rev {K} `{EqDecision K} (l : list K) :
  List.fold_left (fun ks k => if bool_decide (k ∈ ks) then ks else ks ++ [k]) l []
  = List.rev (remove_dups (List.rev l)).
Proof.
  induction l as [|x l IH] using rev_ind; [reflexivity|].
  rewrite fold_left_app, IH, rev_unit. simpl.
  assert (Hmem : x ∈ List.rev (remove_dups (List.rev l)) <-> x ∈ List.rev l).
  { rewrite list_elem_of_In, <- in_rev, <- list_elem_of_In.
    apply elem_of_remove_dups. }
  destruct (decide_rel elem_of x (List.rev l)) as [Hin|Hnin].
  - rewrite bool_decide_eq_true_2 by (apply Hmem, Hin). reflexivity.
  - rewrite bool_decide_eq_false_2 by (rewrite Hmem; exact Hnin).
    simpl. reflexivity.
Qed.

(** X3. The merge keeps the notices in the order in which their ids first
    occur in the concatenation: the ids of the result are the ids of the
    input with every repetition after the first struck out.  A list whose ids
    are all different comes back as it is, and merging a merged list changes
    nothing. *)
Theorem uniqueById_first_occurrence_order (allNotices : list Notice) :
  List.map id (uniqueById allNotices)
  = List.rev (remove_dups (List.rev (List.map id allNotices)))
  /\ (List.NoDup (List.map id allNotices) -> uniqueById allNotices = allNotices)
  /\ uniqueById (uniqueById allNotices) = uniqueById allNotices.
Proof.
  assert (Hfix : forall l, List.NoDup (List.map id l) -> uniqueById l = l).
  { intros l Hnd. unfold uniqueById, Map_values, Map_new.
    rewrite fold_Map_set_fresh.
    - cbn [app]. rewrite List.map_map. unfold entry. cbn [snd]. apply List.map_id.
    - rewrite List.map_map. unfold entry. cbn [fst]. exact Hnd.
    - intros k _ []. }
  split; [|split].
  - rewrite uniqueById_ids. unfold Map_new. rewrite fold_Map_set_keys.
    rewrite List.map_map. unfold entry. cbn [fst List.map].
    apply first_occurrences_rev.
  - apply Hfix.
  - apply Hfix, uniqueById_NoDup.
Qed.

(** ** The sort by date *)

Section SortFacts.
Variable cmp : Notice -> Notice -> Z.
Variable t : Notice -> Z.

Local Abbreviation keyed := (keyed cmp t).

Lemma insert_sorted_In x l z : In z (insert_sorted cmp x l) <-> z = x \/ In z l.
Proof.
  induction l as [|y l IH]; simpl; [intuition congruence|].
  destruct (cmp x y <? 0); simpl; [intuition congruence|].
  rewrite IH. intuition congruence.
Qed.

Lemma insert_sorted_perm x l : Permutation (insert_sorted cmp x l) (x :: l).
Proof.
  induction l as [|y l IH]; simpl; [reflexivity|].
  destruct (cmp x y <? 0); [reflexivity|].
  rewrite IH. apply perm_swap.
Qed.

Lemma sort_snoc l x : sort cmp (l ++ [x]) = insert_sorted cmp x (sort cmp l).
Proof. unfold sort. rewrite fold_left_app. reflexivity. Qed.

Lemma sort_perm l : Permutation (sort cmp l) l.
Proof.
  induction l as [|x l IH] using rev_ind; [reflexivity|].
  rewrite sort_snoc, insert_sorted_perm, IH.
  apply Permutation_cons_append.
Qed.

Lemma insert_sorted_sorted x l :
  keyed (x :: l) ->
  Sorted.StronglySorted (fun a b => t a <= t b) l ->
  Sorted.StronglySorted (fun a b => t a <= t b) (insert_sorted cmp x l).
Proof.
  intros Hkey Hs. induction Hs as [|y l Hs IH Hy]; simpl.
  - repeat constructor.
  - assert (Hxy : cmp x y = t x - t y) by (apply Hkey; simpl; auto).
    destruct (Z.ltb_spec (cmp x y) 0) as [Hlt|Hge].
    + constructor; [constructor; assumption|].
      constructor; [lia|]. rewrite List.Forall_forall in *.
      intros z Hz. specialize (Hy z Hz). lia.
    + constructor.
      * apply IH. intros a b Ha Hb. apply Hkey; simpl in *; tauto.
      * rewrite List.Forall_forall in *. intros z Hz.
        apply insert_sorted_In in Hz as [->|Hz]; [lia|apply Hy, Hz].
Qed.

Lemma sort_sorted l :
  keyed l -> Sorted.StronglySorted (fun a b => t a <= t b) (sort cmp l).
Proof.
  induction l as [|x l IH] using rev_ind; intros Hkey; [constructor|].
  rewrite sort_snoc. apply insert_sorted_sorted.
  - intros a b Ha Hb. apply Hkey; apply in_or_app.
    + destruct Ha as [<-|Ha]; [right; left; reflexivity|].
      left. apply (Permutation_in _ (sort_perm l)), Ha.
    + destruct Hb as [<-|Hb]; [right; left; reflexivity|].
      left. apply (Permutation_in _ (sort_perm l)), Hb.
  - apply IH. intros a b Ha Hb. apply Hkey; apply in_or_app; left; assumption.
Qed.

(** A notice goes behind the notices of its own key. *)
Lemma insert_sorted_stable x l k :
  keyed (x :: l) ->
  Sorted.StronglySorted (fun a b => t a <= t b) l ->
  List.filter (fun n => t n =? k) (insert_sorted cmp x l)
  = List.filter (fun n => t n =? k) l ++ (if t x =? k then [x] else []).
Proof.
  intros Hkey Hs. induction Hs as [|y l Hs IH Hy]; simpl.
  - destruct (t x =? k); reflexivity.
  - assert (Hxy : cmp x y = t x - t y) by (apply Hkey; simpl; auto).
    destruct (Z.ltb_spec (cmp x y) 0) as [Hlt|Hge].
    + simpl. destruct (Z.eqb_spec (t x) k) as [Hk|Hk].
      * assert (Hnone : List.filter (fun n => t n =? k) (y :: l) = []).
        { apply filter_none. rewrite List.Forall_forall in Hy.
          intros z [<-|Hz]; apply Z.eqb_neq; [lia|]. specialize (Hy z Hz). lia. }
        simpl in Hnone. rewrite Hnone. reflexivity.
      * rewrite app_nil_r. reflexivity.
    + simpl. rewrite IH by (intros a b Ha Hb; apply Hkey; simpl in *; tauto).
      destruct (t y =? k); reflexivity.
Qed.

Lemma sort_stable l k :
  keyed l ->
  List.filter (fun n => t n =? k) (sort cmp l) = List.filter (fun n => t n =? k) l.
Proof.
  induction l as [|x l IH] using rev_ind; intros Hkey; [reflexivity|].
  assert (Hl : keyed l) by (intros a b Ha Hb; apply Hkey; apply in_or_app; left; assumption).
  rewrite sort_snoc, insert_sorted_stable, IH, List.filter_app by
    first [ exact Hl | apply sort_sorted, Hl
          | intros a b Ha Hb; apply Hkey; apply in_or_app;
            [ destruct Ha as [<-|Ha]; [right; left; reflexivity|];
              left; apply (Permutation_in _ (sort_perm l)), Ha
            | destruct Hb as [<-|Hb]; [right; left; reflexivity|];
              left; apply (Permutation_in _ (sort_perm l)), Hb ] ].
  reflexivity.
Qed.
End SortFacts.

(** X4. The sort of [run] loses and adds nothing.  When every date parses,
    the notices come out in ascending order of their instants, and notices of
    the same instant keep the order they had. *)
Theorem sort_by_date_ascending_stable (Date_parse : jsstring -> option Z)
    (l : list Notice) :
  Permutation (sort (byDate Date_parse) l) l
  /\ ((forall n, In n l -> Date_parse (date n) <> None) ->
      Sorted.StronglySorted (fun a b => instant Date_parse a <= instant Date_parse b)
        (sort (byDate Date_parse) l)
      /\ forall k,
           List.filter (fun n => instant Date_parse n =? k) (sort (byDate Date_parse) l)
           = List.filter (fun n => instant Date_parse n =? k) l).
Proof.
  split; [apply sort_perm|]. intros Hvalid.
  assert (Hkey : keyed (byDate Date_parse) (instant Date_parse) l).
  { intros a b Ha Hb. unfold byDate, instant, Date_minus.
    destruct (Date_parse (date a)) eqn:Ea; [|exfalso; exact (Hvalid a Ha Ea)].
    destruct (Date_parse (date b)) eqn:Eb; [|exfalso; exact (Hvalid b Hb Eb)].
    reflexivity. }
  split; [apply sort_sorted, Hkey|]. intros k. apply sort_stable, Hkey.
Qed.

(** ** [preload], [saveSentNotices] and [sendEmail] on their own *)

(** X5. [preload] replaces the membership set by the ids, among those of the
    given notices, that have a record in the store: afterwards [check] rejects
    a notice exactly when its id is one of the given ids and is recorded.  On
    an empty list it asks nothing and leaves the set as it was; when the query
    fails it throws and leaves the set as it was.  It never touches the store
    or the outbox. *)
Theorem preload_sets_membership (o : Outside) (notices : list Notice) (s : State) :
  collection (snd (MongoPersistenceStrategy.preload o notices s)) = collection s
  /\ outbox (snd (MongoPersistenceStrategy.preload o notices s)) = outbox s
  /\ (notices = [] ->
      fst (MongoPersistenceStrategy.preload o notices s) = Returns tt
      /\ existingIds (snd (MongoPersistenceStrategy.preload o notices s)) = existingIds s)
  /\ (notices <> [] -> Notice_find o = false ->
      fst (MongoPersistenceStrategy.preload o notices s) = Throws QueryError
      /\ existingIds (snd (MongoPersistenceStrategy.preload o notices s)) = existingIds s)
  /\ (notices <> [] -> Notice_find o = true ->
      fst (MongoPersistenceStrategy.preload o notices s) = Returns tt
      /\ forall n,
           MongoPersistenceStrategy.check
             (snd (MongoPersistenceStrategy.preload o notices s)) n = false
           <-> In (String_ (id n)) (List.map (fun n => String_ (id n)) notices)
               /\ recorded (collection s) n = true).
Proof.
  rewrite preload_eq. destruct notices as [|n0 notices].
  - repeat split; try reflexivity; intros; congruence.
  - destruct (Notice_find o); cbn [fst snd collection outbox existingIds].
    + split; [reflexivity|]. split; [reflexivity|]. split; [discriminate|].
      split; [discriminate|]. intros _ _. split; [reflexivity|]. intros n.
      rewrite check_false_iff. cbn [existingIds].
      rewrite elem_of_list_to_set, list_elem_of_In, find_in_spec, recorded_true. tauto.
    + split; [reflexivity|]. split; [reflexivity|]. split; [discriminate|].
      split; [|discriminate]. intros _ _. split; reflexivity.
Qed.

(** X6. [saveSentNotices] on a batch whose insert does not throw adds the ids
    of the whole batch to the membership set and removes none, so [check]
    rejects every notice of the batch and every notice it rejected before.
    In every case the set only grows, the records that were in the store stay
    in it, and the outbox is not touched; on an empty batch nothing changes. *)
Theorem saveSentNotices_marks_batch (o : Outside) (notices : list Notice) (s : State) :
  outbox (snd (MongoPersistenceStrategy.saveSentNotices o notices s)) = outbox s
  /\ existingIds s ⊆ existingIds (snd (MongoPersistenceStrategy.saveSentNotices o notices s))
  /\ (forall d, In d (collection s) ->
        In d (collection (snd (MongoPersistenceStrategy.saveSentNotices o notices s))))
  /\ (notices = [] ->
      collection (snd (MongoPersistenceStrategy.saveSentNotices o notices s)) = collection s
      /\ existingIds (snd (MongoPersistenceStrategy.saveSentNotices o notices s))
         = existingIds s)
  /\ (snd (database.insertMany (Notice_insertMany o) (collection s)
             (List.map (MongoPersistenceStrategy.operation (Date_now o)) notices)) = Some tt ->
      forall n,
        MongoPersistenceStrategy.check
          (snd (MongoPersistenceStrategy.saveSentNotices o notices s)) n = false
        <-> MongoPersistenceStrategy.check s n = false
            \/ In (String_ (id n)) (List.map (fun n => String_ (id n)) notices)).
Proof.
  rewrite saveSentNotices_eq. destruct notices as [|n0 notices].
  - cbn [snd outbox existingIds collection].
    split; [reflexivity|]. split; [reflexivity|]. split; [tauto|].
    split; [split; reflexivity|]. intros _ n. cbn [List.map In]. tauto.
  - cbv zeta.
    destruct (snd (database.insertMany _ _ _)) as [[]|] eqn:Hins;
      cbn [snd outbox existingIds collection].
    + split; [reflexivity|].
      split; [unfold MongoPersistenceStrategy.addAll; set_solver|].
      split; [intros d; apply insertMany_grows|]. split; [discriminate|].
      intros _ n. rewrite !check_false_iff. cbn [existingIds].
      unfold MongoPersistenceStrategy.addAll.
      rewrite elem_of_union, elem_of_list_to_set, list_elem_of_In. reflexivity.
    + split; [reflexivity|]. split; [reflexivity|].
      split; [intros d; apply insertMany_grows|]. split; discriminate.
Qed.

Lemma existsb_Permutation {A} (f : A -> bool) l l' :
  Permutation l l' -> List.existsb f l = List.existsb f l'.
Proof.
  induction 1 as [|x l l' _ IH|x y l|l l' l'' _ IH1 _ IH2]; simpl.
  - reflexivity.
  - rewrite IH. reflexivity.
  - destruct (f x), (f y); reflexivity.
  - congruence.
Qed.

(** X7. [sendEmail] hands the provider one message for the whole list: when
    the provider accepts it the outbox gains exactly this message, otherwise
    [sendEmail] throws and the outbox is as before; the store and the
    membership set are never touched.  The message is marked critical exactly
    when some notice of the list is critical, in whatever order the notices
    come, and it has one card per notice, in order, each with the class of
    its own notice. *)
Theorem sendEmail_one_message (o : Outside) (config : Config) (notices : list Notice)
    (s : State) :
  collection (snd (NoticeMonitor.sendEmail o config notices s)) = collection s
  /\ existingIds (snd (NoticeMonitor.sendEmail o config notices s)) = existingIds s
  /\ (resend_emails_send o = Delivered ->
      fst (NoticeMonitor.sendEmail o config notices s) = Returns tt
      /\ outbox (snd (NoticeMonitor.sendEmail o config notices s))
         = outbox s ++ [digest config notices])
  /\ (resend_emails_send o <> Delivered ->
      (exists e, fst (NoticeMonitor.sendEmail o config notices s) = Throws e)
      /\ outbox (snd (NoticeMonitor.sendEmail o config notices s)) = outbox s)
  /\ (critical (digest config notices) = true <->
      exists n, In n notices /\ ContentFilterStrategy.check n = true)
  /\ (forall notices', Permutation notices notices' ->
        critical (digest config notices') = critical (digest config notices))
  /\ List.map fst (cards (digest config notices)) = notices
  /\ List.map snd (cards (digest config notices))
     = List.map ContentFilterStrategy.check notices.
Proof.
  rewrite sendEmail_eq.
  split; [destruct (resend_emails_send o); reflexivity|].
  split; [destruct (resend_emails_send o); reflexivity|].
  split; [intros ->; split; reflexivity|].
  split; [destruct (resend_emails_send o); [congruence| |]; intros _; eauto|].
  split; [|split; [|split]].
  - cbn [digest critical]. rewrite existsb_exists. split.
    + intros ([n c] & Hin & Hc). apply in_map_iff in Hin as (n' & [= <- <-] & Hn).
      exists n'. split; [exact Hn|exact Hc].
    + intros (n & Hn & Hc). exists (n, ContentFilterStrategy.check n).
      split; [|exact Hc]. apply in_map_iff. eauto.
  - intros notices' Hperm. cbn [digest critical]. symmetry.
    apply existsb_Permutation, Permutation_map, Hperm.
  - cbn [digest cards]. rewrite List.map_map. cbn [fst]. apply List.map_id.
  - cbn [digest cards]. rewrite List.map_map. reflexivity.
Qed.

(** ** More on the filter chain *)

Lemma List_filter_sublist {A} (f : A -> bool) l : sublist (List.filter f l) l.
Proof.
  induction l as [|x l IH]; simpl; [constructor|].
  destruct (f x); constructor; exact IH.
Qed.

Lemma List_filter_filter {A} (f g : A -> bool) l :
  List.filter g (List.filter f l) = List.filter (fun x => f x && g x) l.
Proof.
  induction l as [|x l IH]; simpl; [reflexivity|].
  destruct (f x); simpl; [destruct (g x)|]; rewrite IH; reflexivity.
Qed.

Lemma checkChain_count checks b n :
  (length (snd (checkChain checks b n)) <= length checks)%nat
  /\ (checks <> [] -> (1 <= length (snd (checkChain checks b n)))%nat).
Proof.
  revert b. induction checks as [|check rest IH]; intros b; simpl.
  - split; [lia|congruence].
  - destruct (check n); simpl.
    + specialize (IH (S b)). destruct (checkChain rest (S b) n) as [keep called].
      simpl in *. split; [lia|intros _; lia].
    + split; [lia|intros _; lia].
Qed.

Lemma applyFilters_count checks notices :
  (length (snd (applyFilters checks notices)) <= length notices * length checks)%nat
  /\ (checks <> [] -> (length notices <= length (snd (applyFilters checks notices)))%nat).
Proof.
  induction notices as [|n rest IH]; simpl.
  - split; [lia|intros _; lia].
  - pose proof (checkChain_count checks 0 n) as [Hle Hge].
    destruct (checkChain checks 0 n) as [keep called].
    destruct (applyFilters checks rest) as [results calls]. simpl in *.
    rewrite length_app, length_map. split; [lia|].
    intros Hne. specialize (Hge Hne). destruct IH as [_ IH]. specialize (IH Hne). lia.
Qed.

(** The strategies called on a notice are the first ones of the chain, each
    once, in the order of the chain. *)
Lemma checkChain_seq checks b n :
  snd (checkChain checks b n) = List.seq b (length (snd (checkChain checks b n))).
Proof.
  revert b. induction checks as [|check rest IH]; intros b; simpl; [reflexivity|].
  destruct (check n); simpl; [|reflexivity].
  specialize (IH (S b)). destruct (checkChain rest (S b) n) as [keep called].
  simpl in *. f_equal. exact IH.
Qed.

Lemma applyFilters_probes checks notices :
  snd (applyFilters checks notices)
  = List.flat_map
      (fun n => List.map (fun i => (i, n))
                  (List.seq 0 (length (snd (checkChain checks 0 n)))))
      notices.
Proof.
  induction notices as [|n rest IH]; simpl; [reflexivity|].
  rewrite <- (checkChain_seq checks 0 n).
  destruct (checkChain checks 0 n) as [keep called].
  destruct (applyFilters checks rest) as [results calls]. simpl in *.
  rewrite IH. reflexivity.
Qed.

(** X8. Filtering by a chain made of two chains is filtering by the first
    and then by the second; the empty chain keeps every notice; the notices
    kept are a sublist of the input, in the order of the input.  The calls of
    the loop are, notice after notice in the order of the input, the
    strategies [0] to [k - 1] of the chain, each once and in this order, for a
    [k] that depends on the notice, is at most the length of the chain and is
    at least 1 when the chain is not empty: at most one call per notice and
    strategy, at least one per notice, and no strategy after one that was not
    called. *)
Theorem applyFilters_composes (checks1 checks2 : list (Notice -> bool))
    (notices : list Notice) :
  fst (applyFilters (checks1 ++ checks2) notices)
  = fst (applyFilters checks2 (fst (applyFilters checks1 notices)))
  /\ fst (applyFilters [] notices) = notices
  /\ sublist (fst (applyFilters checks1 notices)) notices
  /\ (length (snd (applyFilters checks1 notices)) <= length notices * length checks1)%nat
  /\ (checks1 <> [] ->
      (length notices <= length (snd (applyFilters checks1 notices)))%nat)
  /\ exists k : Notice -> nat,
       (forall n, (k n <= length checks1)%nat /\ (checks1 <> [] -> (1 <= k n)%nat))
       /\ snd (applyFilters checks1 notices)
          = List.flat_map (fun n => List.map (fun i => (i, n)) (List.seq 0 (k n))) notices.
Proof.
  split; [|split; [|split; [|split; [|split]]]].
  - rewrite !applyFilters_results, List_filter_filter.
    apply filter_ext. intros n. apply forallb_app.
  - rewrite applyFilters_results. simpl.
    induction notices as [|n rest IH]; simpl; [reflexivity|]. rewrite IH. reflexivity.
  - rewrite applyFilters_results. apply List_filter_sublist.
  - apply applyFilters_count.
  - apply applyFilters_count.
  - exists (fun n => length (snd (checkChain checks1 0 n))).
    split; [intros n; apply checkChain_count|apply applyFilters_probes].
Qed.

(** ** Letter case in the content filter *)

Section CaseMap.
Variable f : N -> N.
Hypothesis f_canonicalize : forall x, canonicalize (f x) = canonicalize x.
Hypothesis f_word : forall x, is_word (f x) = is_word x.
Hypothesis f_space : forall x, is_space (f x) = is_space x.
Hypothesis f_line : forall x, is_line_terminator (f x) = is_line_terminator x.

Lemma star_loop_case r1 k k' :
  (forall p s k k',
     (forall p' s', k' (option_map f p') (List.map f s') = k p' s') ->
     m r1 (option_map f p) (List.map f s) k' = m r1 p s k) ->
  (forall p' s', k' (option_map f p') (List.map f s') = k p' s') ->
  forall fuel p t,
    star_loop r1 k' fuel (option_map f p) (List.map f t) = star_loop r1 k fuel p t.
Proof.
  intros Hr1 Hk. induction fuel as [|fuel IH]; intros p t.
  - simpl. apply Hk.
  - rewrite !star_loop_S, <- (Hk p t).
    rewrite (Hr1 p t (fun p' t' =>
               if (length t' <? length t)%nat then star_loop r1 k fuel p' t' else false));
      [reflexivity|].
    intros p' s'. rewrite !length_map, IH. reflexivity.
Qed.

Lemma m_case r p s k k' :
  (forall p' s', k' (option_map f p') (List.map f s') = k p' s') ->
  m r (option_map f p) (List.map f s) k' = m r p s k.
Proof.
  revert p s k k'.
  induction r as [c| | | | |r1 IH1 r2 IH2|r1 IH1 r2 IH2|r1 IH1|r1 IH1];
    intros p s k k' Hk.
  - destruct s as [|x s]; [reflexivity|]. simpl.
    rewrite f_canonicalize, <- (Hk (Some x) s). reflexivity.
  - destruct s as [|x s]; [reflexivity|]. simpl.
    rewrite f_line, <- (Hk (Some x) s). reflexivity.
  - destruct s as [|x s]; [reflexivity|]. simpl.
    rewrite f_space, <- (Hk (Some x) s). reflexivity.
  - simpl. rewrite <- (Hk p s).
    replace (is_word_at (option_map f p)) with (is_word_at p)
      by (destruct p; simpl; rewrite ?f_word; reflexivity).
    replace (is_word_at (head (List.map f s))) with (is_word_at (head s))
      by (destruct s; simpl; rewrite ?f_word; reflexivity).
    reflexivity.
  - simpl. apply Hk.
  - simpl. apply IH1. intros p' s'. apply IH2, Hk.
  - simpl. rewrite (IH1 p s k k' Hk), (IH2 p s k k' Hk). reflexivity.
  - rewrite !m_Star, length_map. apply star_loop_case; [exact IH1|exact Hk].
  - simpl. rewrite (IH1 p s k k' Hk), <- (Hk p s). reflexivity.
Qed.

Lemma search_case r p s :
  search r (option_map f p) (List.map f s) = search r p s.
Proof.
  revert p. induction s as [|x s IH]; intros p.
  - pose proof (m_case r p [] (fun _ _ => true) (fun _ _ => true) (fun _ _ => eq_refl)) as H.
    simpl in *. rewrite H. reflexivity.
  - pose proof (m_case r p (x :: s) (fun _ _ => true) (fun _ _ => true)
                  (fun _ _ => eq_refl)) as H.
    simpl in *. rewrite H, <- (IH (Some x)). reflexivity.
Qed.

Lemma test_case r s : test r (List.map f s) = test r s.
Proof. apply (search_case r None s). Qed.
End CaseMap.

Ltac N_cases :=
  repeat match goal with
         | |- context [(?a <=? ?b)%N] => destruct (N.leb_spec a b); try (exfalso; lia)
         | |- context [(?a =? ?b)%N] => destruct (N.eqb_spec a b); try (exfalso; lia)
         end.

Lemma canonicalize_range x :
  (canonicalize x = x /\ ~ (97 <= x <= 122)%N)
  \/ (canonicalize x = x - 32 /\ 97 <= x <= 122)%N.
Proof. unfold canonicalize. N_cases; cbn; lia. Qed.

Lemma canonicalize_idem x : canonicalize (canonicalize x) = canonicalize x.
Proof.
  destruct (canonicalize_range x) as [[E _]|[E Hx]]; rewrite !E; [reflexivity|].
  unfold canonicalize. N_cases; reflexivity.
Qed.

Lemma canonicalize_word x : is_word (canonicalize x) = is_word x.
Proof.
  destruct (canonicalize_range x) as [[E _]|[E Hx]]; rewrite !E; [reflexivity|].
  unfold is_word. N_cases; reflexivity.
Qed.

Lemma canonicalize_space x : is_space (canonicalize x) = is_space x.
Proof.
  destruct (canonicalize_range x) as [[E _]|[E Hx]]; rewrite !E; [reflexivity|].
  unfold is_space. N_cases; reflexivity.
Qed.

Lemma canonicalize_line x : is_line_terminator (canonicalize x) = is_line_terminator x.
Proof.
  destruct (canonicalize_range x) as [[E _]|[E Hx]]; rewrite !E; [reflexivity|].
  unfold is_line_terminator. N_cases; reflexivity.
Qed.

Lemma test_canonical r s : test r (List.map canonicalize s) = test r s.
Proof.
  apply test_case; [apply canonicalize_idem|apply canonicalize_word
                   |apply canonicalize_space|apply canonicalize_line].
Qed.

(** X9. The content filter does not look at the case of the letters a to z:
    two notices whose titles differ only there are classified alike (by each
    of the patterns, and so by [check]).  In particular a title and its
    upper-case form are classified alike. *)
Theorem content_check_ignores_case (n n' : Notice) :
  List.map canonicalize (title n) = List.map canonicalize (title n') ->
  (forall regex, test regex (title n) = test regex (title n'))
  /\ ContentFilterStrategy.check n = ContentFilterStrategy.check n'.
Proof.
  intros Hcase.
  assert (Htest : forall regex, test regex (title n) = test regex (title n')).
  { intros regex. rewrite <- (test_canonical regex (title n)), Hcase. apply test_canonical. }
  split; [exact Htest|].
  rewrite !check_eq.
  unfold ContentFilterStrategy.explicitMatch, ContentFilterStrategy.isGenericUrgent.
  rewrite !Htest. f_equal.
  induction ContentFilterStrategy.CRITICAL_PATTERNS as [|regex l IH]; [reflexivity|].
  simpl. rewrite Htest, IH. reflexivity.
Qed.

Lemma content_check_ignores_case_witness :
  ContentFilterStrategy.check
    (mkNotice (IdNum 1) (lit "EXAM FORM FOR B.TECH VI SEM") [] [])
  = ContentFilterStrategy.check
      (mkNotice (IdNum 2) (lit "exam form for b.tech vi sem") [] []).
Proof.
  apply (content_check_ignores_case
           (mkNotice (IdNum 1) (lit "EXAM FORM FOR B.TECH VI SEM") [] [])
           (mkNotice (IdNum 2) (lit "exam form for b.tech vi sem") [] [])).
  vm_compute. reflexivity.
Defined.

(** ** What a run mails and records *)

Lemma checkCalls_no_send made :
  List.filter is_sendEmail (NoticeMonitor.checkCalls made) = [].
Proof.
  apply filter_none. intros c Hc. apply checkCalls_In in Hc as (i & n & ->). reflexivity.
Qed.

Lemma checkCalls_no_save made :
  List.filter is_saveSentNotices (NoticeMonitor.checkCalls made) = [].
Proof.
  apply filter_none. intros c Hc. apply checkCalls_In in Hc as (i & n & ->). reflexivity.
Qed.

Ltac nonempty :=
  match goal with
  | H : length _ = S ?n |- ?X <> [] =>
      let E := fresh in
      let Hlen := fresh in
      intros E; assert (Hlen : length X = S n) by exact H;
      rewrite E in Hlen; discriminate Hlen
  end.

Lemma attempt_messages o config self s :
  exists new,
    calls (snd (NoticeMonitor.attempt o config self s)) = calls s ++ new
    /\ (length (List.filter is_sendEmail new) <= 1)%nat
    /\ (forall notices, In (sendEmail_ notices) new ->
          notices <> [] /\ SEED_MODE config = false
          /\ match resend_emails_send o with
             | Delivered =>
                 outbox (snd (NoticeMonitor.attempt o config self s))
                 = outbox s ++ [digest config notices]
             | _ =>
                 outbox (snd (NoticeMonitor.attempt o config self s)) = outbox s
                 /\ exists e, fst (NoticeMonitor.attempt o config self s) = Throws e
             end)
    /\ ((forall notices, ~ In (sendEmail_ notices) new) ->
        outbox (snd (NoticeMonitor.attempt o config self s)) = outbox s).
Proof.
  attempt_exec.
  all: eexists; split; [rewrite <- ?app_assoc; reflexivity|].
  all: split; [rewrite ?List.filter_app, ?checkCalls_no_send; cbn; lia|].
  all: split; [|intros Hno; first [reflexivity | exfalso; eapply Hno; find_call]].
  all: intros notices Hin; call_cases Hin; try discriminate.
  all: injection Hin as <-.
  all: split; [first [discriminate | nonempty]|].
  all: split; [first [reflexivity|assumption]|].
  all: first [reflexivity | split; [reflexivity|eauto]].
Qed.

Lemma attempt_records o config self s :
  exists new,
    calls (snd (NoticeMonitor.attempt o config self s)) = calls s ++ new
    /\ (length (List.filter is_saveSentNotices new) <= 1)%nat
    /\ (forall notices, In (saveSentNotices_ notices) new ->
          notices <> [] /\ NoticeMonitor.persistence self = true
          /\ collection (snd (NoticeMonitor.attempt o config self s))
             = fst (database.insertMany (Notice_insertMany o) (collection s)
                      (List.map (MongoPersistenceStrategy.operation (Date_now o)) notices))
          /\ (SEED_MODE config = false ->
              In (sendEmail_ notices) new /\ resend_emails_send o = Delivered
              /\ TEST_MODE config = false))
    /\ ((forall notices, ~ In (saveSentNotices_ notices) new) ->
        collection (snd (NoticeMonitor.attempt o config self s)) = collection s).
Proof.
  attempt_exec.
  all: eexists; split; [rewrite <- ?app_assoc; reflexivity|].
  all: split; [rewrite ?List.filter_app, ?checkCalls_no_save; cbn; lia|].
  all: split; [|intros Hno; first [reflexivity | exfalso; eapply Hno; find_call]].
  all: intros notices Hin; call_cases Hin; try discriminate.
  all: injection Hin as <-.
  all: split; [discriminate|].
  all: split; [first [reflexivity|assumption]|].
  all: split; [reflexivity|].
  all: first [ intros; congruence | intros _ ].
  all: split; [find_call|]. 
  all: split; [first [reflexivity|assumption]|].
  all: match goal with
       | H : negb ?b = true |- ?b = false => apply negb_true_iff, H
       | H : TEST_MODE _ = false |- _ => exact H
       end.
Qed.

Lemma run_tail o config self s :
  exists tail,
    calls (snd (NoticeMonitor.run o config self s))
    = calls (snd (NoticeMonitor.attempt o config self s)) ++ tail
    /\ List.filter is_sendEmail tail = []
    /\ List.filter is_saveSentNotices tail = []
    /\ (forall notices, ~ In (sendEmail_ notices) tail)
    /\ (forall notices, ~ In (saveSentNotices_ notices) tail).
Proof.
  destruct (run_after_attempt o config self s) as (_ & _ & tail & Hcalls & Htail).
  exists tail. split; [exact Hcalls|].
  repeat split.
  - apply filter_none. intros c Hc. apply Htail in Hc as [->|[->|[e ->]]]; reflexivity.
  - apply filter_none. intros c Hc. apply Htail in Hc as [->|[->|[e ->]]]; reflexivity.
  - intros notices Hc. apply Htail in Hc as [H|[H|[e H]]]; discriminate.
  - intros notices Hc. apply Htail in Hc as [H|[H|[e H]]]; discriminate.
Qed.

Lemma run_throws o config self s e :
  fst (NoticeMonitor.attempt o config self s) = Throws e ->
  fst (NoticeMonitor.run o config self s) = Exits 1.
Proof.
  rewrite run_eq.
  destruct (NoticeMonitor.attempt o config self s) as [[[]|e'|code] s']; cbn;
    intros H; first [discriminate H | reflexivity].
Qed.

(** X10.  A run sends at most one message.  Whatever the configuration, the
    chain and the outside world, [run] calls [sendEmail] at most once, never
    in seed mode and never with an empty list.  When the mail service accepts
    the message the outbox gains exactly the digest of the notices passed to
    [sendEmail]; when it answers with an error or rejects, the outbox is
    unchanged and the run ends in [process.exit(1)].  A run without a
    [sendEmail] call leaves the outbox as it was. *)
Theorem run_sends_at_most_one_message o config self s :
  exists new,
    calls (snd (NoticeMonitor.run o config self s)) = calls s ++ new
    /\ (length (List.filter is_sendEmail new) <= 1)%nat
    /\ (forall notices, In (sendEmail_ notices) new ->
          notices <> [] /\ SEED_MODE config = false
          /\ match resend_emails_send o with
             | Delivered =>
                 outbox (snd (NoticeMonitor.run o config self s))
                 = outbox s ++ [digest config notices]
             | _ =>
                 outbox (snd (NoticeMonitor.run o config self s)) = outbox s
                 /\ fst (NoticeMonitor.run o config self s) = Exits 1
             end)
    /\ ((forall notices, ~ In (sendEmail_ notices) new) ->
        outbox (snd (NoticeMonitor.run o config self s)) = outbox s).
Proof.
  destruct (attempt_messages o config self s) as (new & Hcalls & Hcount & Hsend & Hnone).
  destruct (run_tail o config self s) as (tail & Htail & Hf & _ & Hno & _).
  destruct (run_after_attempt o config self s) as (_ & Hout & _).
  exists (new ++ tail). rewrite Htail, Hcalls, Hout, <- app_assoc.
  split; [reflexivity|].
  split; [rewrite List.filter_app, Hf, app_nil_r; exact Hcount|].
  split.
  - intros notices Hin. apply in_app_or in Hin as [Hin|Hin]; [|destruct (Hno _ Hin)].
    destruct (Hsend notices Hin) as (Hne & Hseed & Hres).
    split; [exact Hne|]. split; [exact Hseed|].
    destruct (resend_emails_send o); [exact Hres| |].
    all: destruct Hres as [Hres [e He]]; split; [exact Hres|exact (run_throws _ _ _ _ _ He)].
  - intros H. apply Hnone. intros notices Hin. apply (H notices), in_or_app. auto.
Qed.

(** X11.  A run records only what it mailed.  [run] calls [saveSentNotices] at
    most once, only on a monitor with a persistence object and never with an
    empty list; the store after the run is the store before it with that one
    bulk insert applied, and a run without the call leaves the store as it
    was.  Outside seed mode the list recorded is the very list passed to
    [sendEmail], the mail service accepted it, and the run is not a test
    run. *)
Theorem run_records_only_what_it_mailed o config self s :
  exists new,
    calls (snd (NoticeMonitor.run o config self s)) = calls s ++ new
    /\ (length (List.filter is_saveSentNotices new) <= 1)%nat
    /\ (forall notices, In (saveSentNotices_ notices) new ->
          notices <> [] /\ NoticeMonitor.persistence self = true
          /\ collection (snd (NoticeMonitor.run o config self s))
             = fst (database.insertMany (Notice_insertMany o) (collection s)
                      (List.map (MongoPersistenceStrategy.operation (Date_now o)) notices))
          /\ (SEED_MODE config = false ->
              In (sendEmail_ notices) new /\ resend_emails_send o = Delivered
              /\ TEST_MODE config = false))
    /\ ((forall notices, ~ In (saveSentNotices_ notices) new) ->
        collection (snd (NoticeMonitor.run o config self s)) = collection s).
Proof.
  destruct (attempt_records o config self s) as (new & Hcalls & Hcount & Hsave & Hnone).
  destruct (run_tail o config self s) as (tail & Htail & _ & Hf & _ & Hno).
  destruct (run_after_attempt o config self s) as (Hcoll & _ & _).
  exists (new ++ tail). rewrite Htail, Hcalls, Hcoll, <- app_assoc.
  split; [reflexivity|].
  split; [rewrite List.filter_app, Hf, app_nil_r; exact Hcount|].
  split.
  - intros notices Hin. apply in_app_or in Hin as [Hin|Hin]; [|destruct (Hno _ Hin)].
    destruct (Hsave notices Hin) as (Hne & Hp & Hstore & Hmail).
    split; [exact Hne|]. split; [exact Hp|]. split; [exact Hstore|].
    intros Hseed. destruct (Hmail Hseed) as (H1 & H2 & H3).
    split; [apply in_or_app; auto|]. split; assumption.
  - intros H. apply Hnone. intros notices Hin. apply (H notices), in_or_app. auto.
Qed.

(** ** The store under a run *)

Lemma insertUnordered_appends docs : forall coll,
  exists added,
    fst (database.insertUnordered coll docs) = coll ++ added
    /\ sublist added docs
    /\ NoDup (List.map database.noticeId added)
    /\ (forall d, In d added -> ~ In (database.noticeId d) (List.map database.noticeId coll)).
Proof.
  induction docs as [|d docs IH]; intros coll; cbn [database.insertUnordered].
  - exists []. rewrite app_nil_r. repeat split; [constructor|constructor|intros d []].
  - destruct (bool_decide (database.noticeId d ∈ List.map database.noticeId coll)) eqn:Hd.
    + destruct (IH coll) as (added & Heq & Hsub & Hnd & Hfresh).
      exists added. cbn [fst]. repeat split; [exact Heq|apply sublist_cons, Hsub|exact Hnd|exact Hfresh].
    + apply bool_decide_eq_false in Hd. rewrite list_elem_of_In in Hd.
      destruct (IH (coll ++ [d])) as (added & Heq & Hsub & Hnd & Hfresh).
      exists (d :: added). rewrite Heq, <- app_assoc. cbn [app].
      repeat split.
      * apply sublist_skip, Hsub.
      * cbn [List.map]. constructor; [|exact Hnd].
        rewrite list_elem_of_In. intros Hin. apply in_map_iff in Hin as (d' & Hid & Hd').
        apply (Hfresh d' Hd'). rewrite Hid, List.map_app. apply in_or_app. right. left. reflexivity.
      * intros d' [<-|Hd']; [exact Hd|].
        intros Hin. apply (Hfresh d' Hd'). rewrite List.map_app. apply in_or_app. auto.
Qed.

Lemma insertMany_appends reachable coll docs :
  exists added,
    fst (database.insertMany reachable coll docs) = coll ++ added
    /\ NoDup (List.map database.noticeId added)
    /\ (forall d, In d added ->
          In d docs /\ database.validates d = true
          /\ ~ In (database.noticeId d) (List.map database.noticeId coll)).
Proof.
  unfold database.insertMany.
  destruct (List.filter database.validates docs) as [|v valid] eqn:Hvalid.
  { exists []. split; [symmetry; apply app_nil_r|]. split; [constructor|intros d []]. }
  destruct reachable.
  2:{ exists []. split; [symmetry; apply app_nil_r|]. split; [constructor|intros d []]. }
  destruct (insertUnordered_appends (v :: valid) coll) as (added & Heq & Hsub & Hnd & Hfresh).
  destruct (database.insertUnordered coll (v :: valid)) as [coll' failed].
  exists added. split; [exact Heq|]. split; [exact Hnd|].
  intros d Hd. 
  assert (Hin : In d (List.filter database.validates docs)).
  { rewrite Hvalid. apply list_elem_of_In. eapply elem_of_sublist; [|exact Hsub].
    apply list_elem_of_In, Hd. }
  apply filter_In in Hin as [Hin Hv].
  split; [exact Hin|]. split; [exact Hv|]. apply Hfresh, Hd.
Qed.

(** X12.  A run only appends to the store, and never a second record under an
    id.  The store after [run] is the store before it followed by new
    records; the new records carry pairwise different ids, none of which was
    in the store, each passes the validation of the schema, and each is the
    record of a notice of the list handed to [saveSentNotices], stamped with
    the clock.  In particular ids that were unique in the store stay so. *)
Theorem run_appends_unique_records o config self s :
  exists new added,
    calls (snd (NoticeMonitor.run o config self s)) = calls s ++ new
    /\ collection (snd (NoticeMonitor.run o config self s)) = collection s ++ added
    /\ NoDup (List.map database.noticeId added)
    /\ (forall d, In d added ->
          database.validates d = true
          /\ ~ In (database.noticeId d) (List.map database.noticeId (collection s))
          /\ exists notices n,
               In (saveSentNotices_ notices) new /\ In n notices
               /\ d = MongoPersistenceStrategy.operation (Date_now o) n)
    /\ (NoDup (List.map database.noticeId (collection s)) ->
        NoDup (List.map database.noticeId
                 (collection (snd (NoticeMonitor.run o config self s))))).
Proof.
  destruct (attempt_records o config self s) as (new & Hcalls & Hcount & Hsave & Hnone).
  destruct (run_tail o config self s) as (tail & Htail & _ & _ & _ & _).
  destruct (run_after_attempt o config self s) as (Hcoll & _ & _).
  assert (Hadded : exists added,
    collection (snd (NoticeMonitor.attempt o config self s)) = collection s ++ added
    /\ NoDup (List.map database.noticeId added)
    /\ (forall d, In d added ->
          database.validates d = true
          /\ ~ In (database.noticeId d) (List.map database.noticeId (collection s))
          /\ exists notices n,
               In (saveSentNotices_ notices) new /\ In n notices
               /\ d = MongoPersistenceStrategy.operation (Date_now o) n)).
  { destruct (List.filter is_saveSentNotices new) as [|c rest] eqn:Hf.
    - exists []. rewrite app_nil_r. split; [|split; [constructor|intros d []]].
      apply Hnone. intros notices Hin.
      assert (Hc : In (saveSentNotices_ notices) (List.filter is_saveSentNotices new))
        by (apply filter_In; split; [exact Hin|reflexivity]).
      rewrite Hf in Hc. destruct Hc.
    - assert (Hc : In c (List.filter is_saveSentNotices new)) by (rewrite Hf; left; reflexivity).
      apply filter_In in Hc as [Hin Hc]. destruct c; try discriminate Hc.
      destruct (Hsave notices Hin) as (_ & _ & Hstore & _).
      destruct (insertMany_appends (Notice_insertMany o) (collection s)
                  (List.map (MongoPersistenceStrategy.operation (Date_now o)) notices))
        as (added & Heq & Hnd & Hdocs).
      exists added. rewrite Hstore. split; [exact Heq|]. split; [exact Hnd|].
      intros d Hd. destruct (Hdocs d Hd) as (Hd1 & Hv & Hfresh).
      split; [exact Hv|]. split; [exact Hfresh|].
      apply in_map_iff in Hd1 as (n & <- & Hn). exists notices, n. auto. }
  destruct Hadded as (added & Heq & Hnd & Hdocs).
  exists (new ++ tail), added. rewrite Htail, Hcalls, Hcoll, Heq, <- app_assoc.
  split; [reflexivity|]. split; [reflexivity|]. split; [exact Hnd|].
  split.
  - intros d Hd. destruct (Hdocs d Hd) as (Hv & Hfresh & notices & n & H1 & H2 & H3).
    split; [exact Hv|]. split; [exact Hfresh|].
    exists notices, n. split; [apply in_or_app; auto|]. auto.
  - intros Hs. rewrite List.map_app. apply NoDup_app. split; [exact Hs|].
    split; [|exact Hnd].
    intros x Hx Hx'. rewrite list_elem_of_In in Hx, Hx'.
    apply in_map_iff in Hx' as (d & <- & Hd). destruct (Hdocs d Hd) as (_ & Hfresh & _).
    exact (Hfresh Hx).
Qed.

(** ** Runs that stop early, and test runs *)

(** X13.  A run that cannot get its input does nothing.  When the connection
    string is missing or empty, or the connection cannot be opened (on a
    monitor with a persistence object), or one of the two requests is
    rejected, [run] ends in [process.exit(1)]; the store and the outbox are
    as they were, and apart from [init], [fetchNotices] and the error report
    no call is made: no [preload], no [check], no [sendEmail], no
    [saveSentNotices], no [cleanup]. *)
Theorem run_aborts_without_input o config self s :
  (NoticeMonitor.persistence self = true
   /\ ((forall c uri, MONGO_URI config <> Some (c :: uri)) \/ mongoose_connect o = false))
  \/ axios_get_NEWS o = Rejected \/ axios_get_EXAM o = Rejected ->
  fst (NoticeMonitor.run o config self s) = Exits 1
  /\ collection (snd (NoticeMonitor.run o config self s)) = collection s
  /\ outbox (snd (NoticeMonitor.run o config self s)) = outbox s
  /\ exists new,
       calls (snd (NoticeMonitor.run o config self s)) = calls s ++ new
       /\ forall c, In c new ->
            c = init_ \/ c = fetchNotices_ \/ c = process_exit_ 1
            \/ exists e, c = console_error_ e.
Proof.
  intros H. rewrite (surjective_pairing (NoticeMonitor.run o config self s)).
  run_exec.
  all: try (exfalso;
            destruct H as [[Hp [Huri|Hconn]]|[Hnews|Hexam]];
            first [ congruence | eapply Huri; eassumption ]).
  all: split; [reflexivity|split; [reflexivity|split; [reflexivity|]]].
  all: eexists; split; [rewrite <- ?app_assoc; reflexivity|].
  all: intros c Hin; call_cases Hin; subst c; eauto.
Qed.

Lemma run_aborts_without_input_witness :
  fst (main Scenario.news_down (boot [] [])) = Exits 1
  /\ collection (snd (main Scenario.news_down (boot [] []))) = []
  /\ outbox (snd (main Scenario.news_down (boot [] []))) = []
  /\ exists new,
       calls (snd (main Scenario.news_down (boot [] []))) = [] ++ new
       /\ forall c, In c new ->
            c = init_ \/ c = fetchNotices_ \/ c = process_exit_ 1
            \/ exists e, c = console_error_ e.
Proof.
  apply (run_aborts_without_input Scenario.news_down
           (loadConfig (process_env Scenario.news_down))
           (monitor Scenario.news_down (loadConfig (process_env Scenario.news_down)))
           (boot [] [])).
  right. left. reflexivity.
Defined.

Lemma applyFilters_empty_chain notices :
  applyFilters [] notices = (notices, []).
Proof.
  induction notices as [|n notices IH]; cbn; [reflexivity|]. rewrite IH. reflexivity.
Qed.

Ltac test_steps :=
  repeat (first [ run_step
                | rewrite applyFilters_empty_chain
                | progress cbn [fst snd collection outbox existingIds calls length
                                Nat.ltb Nat.leb andb negb List.map
                                NoticeMonitor.strategies NoticeMonitor.persistence
                                NoticeMonitor.checkCalls boot]
                | run_case ]).

(** The steps of a test run. *)
Lemma test_run_steps o coll out :
  TEST_MODE (loadConfig (process_env o)) = true ->
  SEED_MODE (loadConfig (process_env o)) = false ->
  collection (snd (main o (boot coll out))) = coll
  /\ (forall i n, ~ In (check_ i n) (calls (snd (main o (boot coll out)))))
  /\ (forall notices, ~ In (saveSentNotices_ notices) (calls (snd (main o (boot coll out)))))
  /\ (forall sent, In (sendEmail_ sent) (calls (snd (main o (boot coll out)))) ->
        exists newsData examData,
          axios_get_NEWS o = Resolved newsData /\ axios_get_EXAM o = Resolved examData
          /\ sent = sort (byDate (Date_parse o)) (mergeNotices newsData examData)
          /\ (resend_emails_send o = Delivered ->
              outbox (snd (main o (boot coll out)))
              = out ++ [digest (loadConfig (process_env o)) sent]
              /\ test_prefix (digest (loadConfig (process_env o)) sent) = true))
  /\ (forall newsData examData c uri,
        MONGO_URI (loadConfig (process_env o)) = Some (c :: uri) ->
        mongoose_connect o = true ->
        axios_get_NEWS o = Resolved newsData -> axios_get_EXAM o = Resolved examData ->
        Notice_find o = true ->
        mergeNotices newsData examData <> [] ->
        In (sendEmail_ (sort (byDate (Date_parse o)) (mergeNotices newsData examData)))
           (calls (snd (main o (boot coll out))))).
Proof.
  intros Htest Hseed.
  unfold main. rewrite run_eq.
  unfold NoticeMonitor.attempt, monitor, configured_strategies, bind, ret, throw, digest.
  rewrite Htest, Hseed.
  test_steps.
  all: unfold logged; cbn [fst snd collection outbox calls].
  all: split; [reflexivity|].
  all: split; [intros ? ? Hin; call_cases Hin; discriminate|].
  all: split; [intros ? Hin; call_cases Hin; discriminate|].
  all: split.
  all: try (intros ? Hin; call_cases Hin; discriminate).
  all: try (intros ? Hin; call_cases Hin; try discriminate;
            injection Hin as <-; do 2 eexists;
            split; [reflexivity|]; split; [reflexivity|]; split; [congruence|];
            intros Hd; first [discriminate Hd | rewrite ?Htest; split; reflexivity]).
  all: intros ? ? ? ? Huri Hconn Hnews Hexam Hfind Hne; try congruence.
  all: injection Hnews as <-; injection Hexam as <-.
  all: match goal with H : sort _ _ = _ |- _ => rewrite H; try rename H into Hsort end.
  all: try solve [find_call].
  all: exfalso; apply Hne, Permutation_nil; rewrite <- Hsort; apply sort_perm.
Qed.

(** X14.  A test run mails everything and records nothing.  With
    [TEST_MODE=true] (and no seed mode) the chain is empty: the run calls no
    [check] and no [saveSentNotices], and the store is untouched.  What it
    passes to [sendEmail] is the whole list fetched, each notice once: a
    permutation of the merged list, in ascending order of the dates (notices
    of one date in their merged order) when every date parses.  When the mail
    service accepts it the outbox gains its digest, marked as a test.  The run
    still opens the connection and preloads: once these and the two requests
    have succeeded on a non-empty list, [sendEmail] is called. *)
Theorem test_run_mails_all_fetched o coll out :
  TEST_MODE (loadConfig (process_env o)) = true ->
  SEED_MODE (loadConfig (process_env o)) = false ->
  collection (snd (main o (boot coll out))) = coll
  /\ (forall i n, ~ In (check_ i n) (calls (snd (main o (boot coll out)))))
  /\ (forall notices, ~ In (saveSentNotices_ notices) (calls (snd (main o (boot coll out)))))
  /\ (forall sent, In (sendEmail_ sent) (calls (snd (main o (boot coll out)))) ->
        exists newsData examData,
          axios_get_NEWS o = Resolved newsData /\ axios_get_EXAM o = Resolved examData
          /\ Permutation sent (mergeNotices newsData examData)
          /\ ((forall n, In n (mergeNotices newsData examData) ->
                         Date_parse o (date n) <> None) ->
              sent = sort (byDate (Date_parse o)) (mergeNotices newsData examData))
          /\ (resend_emails_send o = Delivered ->
              outbox (snd (main o (boot coll out)))
              = out ++ [digest (loadConfig (process_env o)) sent]
              /\ test_prefix (digest (loadConfig (process_env o)) sent) = true))
  /\ (forall newsData examData c uri,
        MONGO_URI (loadConfig (process_env o)) = Some (c :: uri) ->
        mongoose_connect o = true ->
        axios_get_NEWS o = Resolved newsData -> axios_get_EXAM o = Resolved examData ->
        Notice_find o = true ->
        mergeNotices newsData examData <> [] ->
        exists sent,
          In (sendEmail_ sent) (calls (snd (main o (boot coll out))))
          /\ Permutation sent (mergeNotices newsData examData)).
Proof.
  intros Htest Hseed.
  destruct (test_run_steps o coll out Htest Hseed) as (Hcoll & Hcheck & Hsave & Hsent & Hlive).
  split; [exact Hcoll|]. split; [exact Hcheck|]. split; [exact Hsave|]. split.
  - intros sent Hin. destruct (Hsent sent Hin) as (nd & ed & Hn & He & -> & Hout).
    exists nd, ed. split; [exact Hn|]. split; [exact He|].
    split; [apply sort_perm|]. split; [reflexivity|exact Hout].
  - intros nd ed c uri Huri Hconn Hn He Hfind Hne. eexists. split.
    + exact (Hlive nd ed c uri Huri Hconn Hn He Hfind Hne).
    + apply sort_perm.
Qed.

Lemma test_run_mails_all_fetched_witness :
  TEST_MODE (loadConfig (process_env Scenario.test_day)) = true
  /\ collection (snd (main Scenario.test_day (boot [] []))) = []
  /\ (forall notices,
        ~ In (saveSentNotices_ notices) (calls (snd (main Scenario.test_day (boot [] []))))).
Proof.
  split; [reflexivity|].
  destruct (test_run_mails_all_fetched Scenario.test_day [] []) as (H1 & _ & H3 & _);
    [reflexivity|reflexivity|].
  split; assumption.
Defined.

(** X15.  An age limit that gives no valid cutoff silences the monitor.  When
    [NOTICE_AGE_LIMIT_HOURS] does not start with a number ([parseInt] gives
    NaN), or is so large that the cutoff is no valid date, every comparison
    with the cutoff is false: a normal run calls neither [sendEmail] nor
    [saveSentNotices] and leaves the outbox and the store as they were,
    whatever was fetched. *)
Theorem invalid_cutoff_mails_nothing o coll out :
  TEST_MODE (loadConfig (process_env o)) = false ->
  SEED_MODE (loadConfig (process_env o)) = false ->
  TimeFilterStrategy.cutoffDate
    (TimeFilterStrategy.new (loadConfig (process_env o)) (Date_now o)) = None ->
  (forall sent, ~ In (sendEmail_ sent) (calls (snd (main o (boot coll out)))))
  /\ (forall notices, ~ In (saveSentNotices_ notices) (calls (snd (main o (boot coll out)))))
  /\ outbox (snd (main o (boot coll out))) = out
  /\ collection (snd (main o (boot coll out))) = coll.
Proof.
  intros Htest Hseed Hcut.
  assert (Hsend : forall sent, ~ In (sendEmail_ sent) (calls (snd (main o (boot coll out))))).
  { intros sent Hin.
    destruct (normal_run_sends o coll out sent Htest Hseed Hin)
      as (newsData & examData & _ & _ & Hne & Hsent).
    apply Hne. rewrite Hsent. apply filter_none. intros n _.
    unfold TimeFilterStrategy.check. rewrite Hcut.
    destruct (Date_parse o (date n)); reflexivity. }
  split; [exact Hsend|].
  unfold main in *.
  set (config := loadConfig (process_env o)) in *.
  destruct (attempt_messages o config (monitor o config) (boot coll out))
    as (new & Hcalls & _ & _ & Hout).
  destruct (attempt_records o config (monitor o config) (boot coll out))
    as (new' & Hcalls' & _ & Hsave & Hcoll).
  destruct (run_tail o config (monitor o config) (boot coll out))
    as (tail & Htail & _ & _ & _ & Hno).
  destruct (run_after_attempt o config (monitor o config) (boot coll out))
    as (Hc & Ho & _).
  assert (Hnew : new' = new).
  { rewrite Hcalls in Hcalls'. apply app_inv_head in Hcalls'. symmetry. exact Hcalls'. }
  subst new'.
  assert (Hnosend : forall sent, ~ In (sendEmail_ sent) new).
  { intros sent Hin. apply (Hsend sent). rewrite Htail, Hcalls.
    apply in_or_app. left. apply in_or_app. right. exact Hin. }
  assert (Hnosave : forall notices, ~ In (saveSentNotices_ notices) new).
  { intros notices Hin. destruct (Hsave notices Hin) as (_ & _ & _ & Hmail).
    destruct (Hmail Hseed) as (Hs & _). exact (Hnosend _ Hs). }
  split.
  - intros notices Hin. rewrite Htail, Hcalls in Hin. cbn [boot calls app] in Hin.
    apply in_app_or in Hin as [Hin|Hin]; [exact (Hnosave _ Hin)|exact (Hno _ Hin)].
  - rewrite Ho, Hc. split; [apply Hout, Hnosend|apply Hcoll, Hnosave].
Qed.

Lemma invalid_cutoff_mails_nothing_witness :
  NOTICE_AGE_LIMIT_HOURS (loadConfig (process_env Scenario.worded_limit_day)) = None
  /\ (forall sent,
        ~ In (sendEmail_ sent) (calls (snd (main Scenario.worded_limit_day (boot [] [])))))
  /\ (forall notices,
        ~ In (saveSentNotices_ notices)
             (calls (snd (main Scenario.worded_limit_day (boot [] [])))))
  /\ outbox (snd (main Scenario.worded_limit_day (boot [] []))) = []
  /\ collection (snd (main Scenario.worded_limit_day (boot [] []))) = [].
Proof.
  split; [reflexivity|].
  apply (invalid_cutoff_mails_nothing Scenario.worded_limit_day [] []); reflexivity.
Defined.

(** ** The one-shot script *)

Lemma Script_sendEmail_eq o notices s :
  Script.sendEmail o notices s =
  (Returns tt,
   mkState (collection s)
           (outbox s ++ match resend_emails_send o with
                        | Delivered => [Script.message (process_env o) notices]
                        | _ => []
                        end)
           (existingIds s)
           (calls s ++ sendEmail_ notices
                       :: match resend_emails_send o with
                          | SendRejects => [console_error_ EmailClientError]
                          | _ => []
                          end)).
Proof.
  unfold Script.sendEmail, bind, called, try_catch, throw, ret, NoticeMonitor.deliver.
  cbn. destruct (resend_emails_send o); cbn; rewrite ?app_nil_r, <- ?app_assoc; reflexivity.
Qed.

Lemma length_zero_nil {A} (l : list A) : (length l =? 0)%nat = true -> l = [].
Proof. destruct l; [reflexivity|discriminate]. Qed.

Lemma Script_picked_eq o l :
  Script.picked o l =
  List.filter checkNews_relevant
    (if negb (Script.TEST_MODE (process_env o))
     then List.filter (fun item => Date_ge (Date_parse o (date item))
                                     (TimeClip (Date_now o - 24 * 60 * 60 * 1000))) l
     else l).
Proof.
  unfold Script.picked. destruct (Script.TEST_MODE (process_env o)); cbn [negb orb].
  - apply filter_ext. intros n. apply andb_true_r.
  - rewrite List_filter_filter. apply filter_ext. intros n. apply andb_comm.
Qed.

(** The script once both requests have answered. *)
Lemma checkNews_resolved o s newsData examData :
  axios_get_NEWS o = Resolved newsData ->
  axios_get_EXAM o = Resolved examData ->
  Script.checkNews o s =
  match Script.picked o (mergeNotices newsData examData) with
  | [] => (Returns tt, s)
  | picked => Script.sendEmail o picked s
  end.
Proof.
  intros Hnews Hexam. rewrite Script_picked_eq.
  unfold Script.checkNews, try_catch, bind, ret. rewrite Hnews, Hexam.
  set (recentCirculars := if negb _ then _ else _).
  destruct (length recentCirculars =? 0)%nat eqn:Hlen.
  - apply length_zero_nil in Hlen. rewrite Hlen. reflexivity.
  - destruct (List.filter checkNews_relevant recentCirculars) as [|n l]; cbn [length Nat.ltb Nat.leb].
    + reflexivity.
    + rewrite Script_sendEmail_eq. reflexivity.
Qed.

(** X16.  What the script mails.  Once both requests have answered, the script
    picks from the merged list the notices whose title passes the content
    check and which, unless the script is in test mode, are dated within the
    last 24 hours.  If it picks none it does nothing at all; otherwise it
    calls [sendEmail] once, on the notices picked in their merged order, and
    the outbox gains one message for them exactly when the mail service
    accepts it.  The date test is the one of the monitor's time filter under
    an age limit of 24 hours. *)
Theorem checkNews_mails_relevant_recent o s newsData examData :
  axios_get_NEWS o = Resolved newsData ->
  axios_get_EXAM o = Resolved examData ->
  (Script.picked o (mergeNotices newsData examData) = [] -> Script.checkNews o s = (Returns tt, s))
  /\ (Script.picked o (mergeNotices newsData examData) <> [] ->
      exists log,
        calls (snd (Script.checkNews o s))
        = calls s ++ sendEmail_ (Script.picked o (mergeNotices newsData examData)) :: log
        /\ (forall sent, ~ In (sendEmail_ sent) log)
        /\ outbox (snd (Script.checkNews o s))
           = outbox s ++
             match resend_emails_send o with
             | Delivered =>
                 [Script.message (process_env o)
                    (Script.picked o (mergeNotices newsData examData))]
             | _ => []
             end)
  /\ (forall config n,
        NOTICE_AGE_LIMIT_HOURS config = Some 24 ->
        (In n (Script.picked o (mergeNotices newsData examData)) <->
         In n (mergeNotices newsData examData)
         /\ ContentFilterStrategy.check n = true
         /\ (Script.TEST_MODE (process_env o) = true
             \/ TimeFilterStrategy.check (Date_parse o)
                  (TimeFilterStrategy.new config (Date_now o)) n = true))).
Proof.
  intros Hnews Hexam. rewrite (checkNews_resolved o s newsData examData Hnews Hexam).
  split; [intros ->; reflexivity|]. split.
  - intros Hne. destruct (Script.picked o (mergeNotices newsData examData)) as [|n l];
      [destruct Hne; reflexivity|].
    rewrite Script_sendEmail_eq. cbn [snd calls outbox].
    eexists. split; [reflexivity|]. split; [|reflexivity].
    intros sent Hin. destruct (resend_emails_send o); cbn in Hin;
      repeat destruct Hin as [Hin|Hin]; try discriminate Hin; exact Hin.
  - intros config n Hhours. unfold Script.picked.
    rewrite filter_In, andb_true_iff, orb_true_iff.
    unfold TimeFilterStrategy.check, TimeFilterStrategy.new.
    cbn [TimeFilterStrategy.cutoffDate]. rewrite Hhours.
    assert (Hrel : checkNews_relevant n = ContentFilterStrategy.check n) by reflexivity.
    rewrite Hrel. tauto.
Qed.


Lemma checkNews_mails_relevant_recent_witness :
  exists log,
    calls (snd (Script.checkNews (Sample.fine false Sample.clock) (boot [] [])))
    = calls (boot [] [])
      ++ sendEmail_ (Script.picked (Sample.fine false Sample.clock)
                       (mergeNotices (Some Sample.news) (Some Sample.exams))) :: log
    /\ (forall sent, ~ In (sendEmail_ sent) log)
    /\ outbox (snd (Script.checkNews (Sample.fine false Sample.clock) (boot [] [])))
       = outbox (boot [] []) ++
         match resend_emails_send (Sample.fine false Sample.clock) with
         | Delivered =>
             [Script.message (process_env (Sample.fine false Sample.clock))
                (Script.picked (Sample.fine false Sample.clock)
                   (mergeNotices (Some Sample.news) (Some Sample.exams)))]
         | _ => []
         end.
Proof.
  destruct (checkNews_mails_relevant_recent (Sample.fine false Sample.clock) (boot [] [])
              (Some Sample.news) (Some Sample.exams) eq_refl eq_refl) as (_ & H & _).
  apply H. vm_compute. discriminate.
Defined.

(** X17.  A lost message does not fail the script.  When one of the two
    requests is rejected, [checkNews] reports the error and ends in
    [process.exit(1)], with nothing mailed.  When both requests answer with a
    body of the expected form, it returns normally whatever the provider
    does: an error answer or a rejected send leaves the outbox as it was and
    is at most logged (the monitor exits with status 1 there). *)
Theorem checkNews_survives_failed_send o s :
  (axios_get_NEWS o = Rejected \/ axios_get_EXAM o = Rejected ->
   Script.checkNews o s
   = (Exits 1, logged s [console_error_ TransportError; process_exit_ 1]))
  /\ (forall newsData examData,
        axios_get_NEWS o = Resolved newsData ->
        axios_get_EXAM o = Resolved examData ->
        fst (Script.checkNews o s) = Returns tt
        /\ (resend_emails_send o <> Delivered ->
            outbox (snd (Script.checkNews o s)) = outbox s)
        /\ exists new,
             calls (snd (Script.checkNews o s)) = calls s ++ new
             /\ forall code, ~ In (process_exit_ code) new).
Proof.
  split.
  - intros Hrej.
    unfold Script.checkNews, try_catch, bind, throw, called, process_exit, logged.
    destruct (axios_get_NEWS o) as [|newsData] eqn:Hnews.
    + cbn. rewrite <- app_assoc. reflexivity.
    + destruct (axios_get_EXAM o) as [|examData] eqn:Hexam.
      * cbn. rewrite <- app_assoc. reflexivity.
      * destruct Hrej as [H|H]; discriminate H.
  - intros newsData examData Hnews Hexam.
    rewrite (checkNews_resolved o s newsData examData Hnews Hexam).
    destruct (Script.picked o (mergeNotices newsData examData)) as [|n l].
    + cbn [fst snd]. split; [reflexivity|]. split; [reflexivity|].
      exists []. split; [symmetry; apply app_nil_r|]. intros code [].
    + rewrite Script_sendEmail_eq. cbn [fst snd outbox calls].
      split; [reflexivity|]. split.
      * intros Hd. destruct (resend_emails_send o); [destruct Hd; reflexivity|..];
          apply app_nil_r.
      * eexists. split; [reflexivity|]. intros code Hin.
        destruct (resend_emails_send o); cbn in Hin;
          repeat destruct Hin as [Hin|Hin]; try discriminate Hin; exact Hin.
Qed.

(** X18.  Any value of [TEST_MODE] puts the script in test mode.  The script
    reads the variable as a condition, so every non-empty value, the string
    false included, switches the date test off: it then mails every notice of
    the merged list that passes the content check, however old, under a test
    subject.  The monitor compares with the string true, and is in production
    mode under the same environment. *)
Theorem script_test_mode_on_any_value o s newsData examData c v :
  env_TEST_MODE (process_env o) = Some (c :: v) ->
  axios_get_NEWS o = Resolved newsData ->
  axios_get_EXAM o = Resolved examData ->
  List.filter ContentFilterStrategy.check (mergeNotices newsData examData) <> [] ->
  In (sendEmail_ (List.filter ContentFilterStrategy.check (mergeNotices newsData examData)))
     (calls (snd (Script.checkNews o s)))
  /\ (resend_emails_send o = Delivered ->
      exists e,
        outbox (snd (Script.checkNews o s)) = outbox s ++ [e]
        /\ test_prefix e = true
        /\ List.map fst (cards e)
           = List.filter ContentFilterStrategy.check (mergeNotices newsData examData))
  /\ (c :: v <> lit "true" -> TEST_MODE (loadConfig (process_env o)) = false).
Proof.
  intros Henv Hnews Hexam Hne.
  assert (Htest : Script.TEST_MODE (process_env o) = true)
    by (unfold Script.TEST_MODE; rewrite Henv; reflexivity).
  assert (Hpick : Script.picked o (mergeNotices newsData examData)
                  = List.filter ContentFilterStrategy.check (mergeNotices newsData examData)).
  { unfold Script.picked. rewrite Htest. apply filter_ext. intros n. apply andb_true_r. }
  rewrite (checkNews_resolved o s newsData examData Hnews Hexam), Hpick.
  destruct (List.filter ContentFilterStrategy.check (mergeNotices newsData examData))
    as [|n l] eqn:Hl; [destruct Hne; reflexivity|].
  rewrite Script_sendEmail_eq. cbn [snd calls outbox].
  split; [apply in_or_app; right; left; reflexivity|]. split.
  - intros ->. eexists. split; [reflexivity|]. split; [exact Htest|].
    cbn [Script.message cards]. rewrite List.map_map. cbn [fst]. apply List.map_id.
  - intros Hv. unfold loadConfig, is_true_string. cbn [TEST_MODE]. rewrite Henv.
    apply bool_decide_eq_false. exact Hv.
Qed.

Lemma script_test_mode_on_any_value_witness :
  env_TEST_MODE (process_env Scenario.test_off_day) = Some (lit "false")
  /\ In (sendEmail_ (List.filter ContentFilterStrategy.check
                       (mergeNotices (Some Sample.news) (Some Sample.exams))))
        (calls (snd (Script.checkNews Scenario.test_off_day (boot [] []))))
  /\ TEST_MODE (loadConfig (process_env Scenario.test_off_day)) = false.
Proof.
  split; [reflexivity|].
  destruct (script_test_mode_on_any_value Scenario.test_off_day (boot [] [])
              (Some Sample.news) (Some Sample.exams) 102%N (lit "alse")
              eq_refl eq_refl eq_refl) as (H1 & _ & H3).
  - vm_compute. discriminate.
  - split; [exact H1|]. apply H3. vm_compute. discriminate.
Defined.

(** ** The script and the monitor on the same day *)

(** When every collaborator up to the filters answers, a normal run mails the
    recent notices without a record, if there are any. *)
Lemma normal_run_reaches_send o coll out newsData examData c uri :
  TEST_MODE (loadConfig (process_env o)) = false ->
  SEED_MODE (loadConfig (process_env o)) = false ->
  MONGO_URI (loadConfig (process_env o)) = Some (c :: uri) ->
  mongoose_connect o = true ->
  axios_get_NEWS o = Resolved newsData ->
  axios_get_EXAM o = Resolved examData ->
  Notice_find o = true ->
  List.filter
    (fun n => TimeFilterStrategy.check (Date_parse o)
                (TimeFilterStrategy.new (loadConfig (process_env o)) (Date_now o)) n
              && negb (recorded coll n))
    (sort (byDate (Date_parse o)) (mergeNotices newsData examData)) <> [] ->
  In (sendEmail_
        (List.filter
           (fun n => TimeFilterStrategy.check (Date_parse o)
                       (TimeFilterStrategy.new (loadConfig (process_env o)) (Date_now o)) n
                     && negb (recorded coll n))
           (sort (byDate (Date_parse o)) (mergeNotices newsData examData))))
     (calls (snd (main o (boot coll out)))).
Proof.
  intros Htest Hseed Huri Hconn Hnews Hexam Hfind.
  destruct (run_after_attempt o (loadConfig (process_env o))
              (monitor o (loadConfig (process_env o))) (boot coll out))
    as (_ & _ & tail & Hcalls & _).
  unfold main. rewrite Hcalls. clear Hcalls. intros Hne.
  apply in_or_app. left. revert Hne.
  unfold NoticeMonitor.attempt, bind, ret.
  unfold monitor, configured_strategies.
  rewrite Hseed, Htest. cbn [negb andb NoticeMonitor.persistence NoticeMonitor.strategies].
  rewrite init_eq, Huri, Hconn. rewrite fetchNotices_eq, Hnews, Hexam.
  cbn [fst snd]. rewrite preload_eq.
  set (fetched := sort (byDate (Date_parse o)) (mergeNotices newsData examData)).
  set (self := TimeFilterStrategy.new (loadConfig (process_env o)) (Date_now o)).
  destruct fetched as [|n0 fetched0] eqn:Hfetched.
  { intros Hne. destruct Hne. reflexivity. }
  rewrite <- Hfetched, Hfind.
  rewrite applyFilters_eq. cbn [fst snd collection outbox existingIds calls boot].
  cbn [NoticeMonitor.strategies].
  rewrite relevant_eq by (intros n Hn; apply preloaded_membership, Hn).
  destruct (List.filter _ fetched) as [|r0 relevant0] eqn:Hrel.
  { intros Hne. destruct Hne. reflexivity. }
  intros _. cbn [length Nat.ltb Nat.leb]. rewrite sendEmail_eq.
  destruct (resend_emails_send o); cbn [fst snd].
  - rewrite saveSentNotices_eq. cbv zeta.
    destruct (snd (database.insertMany _ _ _)); cbn [snd calls]; find_call.
  - cbn [calls]. find_call.
  - cbn [calls]. find_call.
Qed.

(** X19.  The monitor mails what the script mailed.  Take a day on which the
    script is not in test mode, the monitor runs normally under an age limit
    of 24 hours, and the store, the two endpoints and the id query answer.
    Then every notice the script picks is, unless the store already has its
    record, in the list the monitor passes to [sendEmail], where it is
    classified as critical; and every notice of that list which is classified
    as critical is one the script picks. *)
Theorem monitor_mails_what_script_picks o coll out newsData examData c uri n :
  Script.TEST_MODE (process_env o) = false ->
  SEED_MODE (loadConfig (process_env o)) = false ->
  NOTICE_AGE_LIMIT_HOURS (loadConfig (process_env o)) = Some 24 ->
  MONGO_URI (loadConfig (process_env o)) = Some (c :: uri) ->
  mongoose_connect o = true ->
  axios_get_NEWS o = Resolved newsData ->
  axios_get_EXAM o = Resolved examData ->
  Notice_find o = true ->
  In n (Script.picked o (mergeNotices newsData examData)) ->
  recorded coll n = false ->
  exists sent,
    In (sendEmail_ sent) (calls (snd (main o (boot coll out))))
    /\ In n sent
    /\ ContentFilterStrategy.check n = true
    /\ (forall m, In m sent -> ContentFilterStrategy.check m = true ->
          In m (Script.picked o (mergeNotices newsData examData))).
Proof.
  intros Hscript Hseed Hhours Huri Hconn Hnews Hexam Hfind Hpick Hrec.
  assert (Htest : TEST_MODE (loadConfig (process_env o)) = false).
  { unfold Script.TEST_MODE in Hscript. unfold loadConfig, is_true_string. cbn [TEST_MODE].
    destruct (env_TEST_MODE (process_env o)) as [[|c' v]|]; [reflexivity|discriminate|reflexivity]. }
  assert (Hwindow : forall m,
    TimeFilterStrategy.check (Date_parse o)
      (TimeFilterStrategy.new (loadConfig (process_env o)) (Date_now o)) m
    = Date_ge (Date_parse o (date m)) (TimeClip (Date_now o - 24 * 60 * 60 * 1000))).
  { intros m. unfold TimeFilterStrategy.check, TimeFilterStrategy.new.
    cbn [TimeFilterStrategy.cutoffDate]. rewrite Hhours. reflexivity. }
  assert (Hin : forall m, In m (Script.picked o (mergeNotices newsData examData)) <->
                          In m (mergeNotices newsData examData)
                          /\ ContentFilterStrategy.check m = true
                          /\ TimeFilterStrategy.check (Date_parse o)
                               (TimeFilterStrategy.new (loadConfig (process_env o)) (Date_now o)) m
                             = true).
  { intros m. unfold Script.picked. rewrite filter_In, andb_true_iff, Hscript, Hwindow.
    cbn [orb]. assert (Hrel : checkNews_relevant m = ContentFilterStrategy.check m) by reflexivity.
    rewrite Hrel. tauto. }
  set (sent := List.filter
                 (fun n => TimeFilterStrategy.check (Date_parse o)
                             (TimeFilterStrategy.new (loadConfig (process_env o)) (Date_now o)) n
                           && negb (recorded coll n))
                 (sort (byDate (Date_parse o)) (mergeNotices newsData examData))).
  assert (Hsent : forall m, In m sent <->
                            In m (mergeNotices newsData examData)
                            /\ TimeFilterStrategy.check (Date_parse o)
                                 (TimeFilterStrategy.new (loadConfig (process_env o)) (Date_now o)) m
                               = true
                            /\ recorded coll m = false).
  { intros m. unfold sent. rewrite filter_In, andb_true_iff, negb_true_iff.
    split; intros (H1 & H2 & H3); (split; [|split; assumption]).
    - eapply Permutation_in; [apply sort_perm|exact H1].
    - eapply Permutation_in; [symmetry; apply sort_perm|exact H1]. }
  apply Hin in Hpick as (Hmerge & Hcheck & Htime).
  assert (Hn : In n sent) by (apply Hsent; auto).
  exists sent. split; [|split; [exact Hn|split; [exact Hcheck|]]].
  - apply (normal_run_reaches_send o coll out newsData examData c uri); try assumption.
    fold sent. intros E. rewrite E in Hn. destruct Hn.
  - intros m Hm Hc. apply Hsent in Hm as (H1 & H2 & _). apply Hin. auto.
Qed.

Lemma monitor_mails_what_script_picks_witness :
  exists sent,
    In (sendEmail_ sent) (calls (snd (main (Sample.fine false Sample.clock) (boot [] []))))
    /\ In Sample.exam_notice sent
    /\ ContentFilterStrategy.check Sample.exam_notice = true
    /\ (forall m, In m sent -> ContentFilterStrategy.check m = true ->
          In m (Script.picked (Sample.fine false Sample.clock)
                  (mergeNotices (Some Sample.news) (Some Sample.exams)))).
Proof.
  apply (monitor_mails_what_script_picks (Sample.fine false Sample.clock) [] []
           (Some Sample.news) (Some Sample.exams) 109%N (lit "ongodb://localhost/notices")
           Sample.exam_notice); try reflexivity.
  vm_compute. left. reflexivity.
Defined.

(** * The runs after a run *)

(** ** What the bulk insert leaves behind *)




(** A document that fails the validation is left out, without an error, and
    a batch of such documents changes nothing. *)
Lemma insertMany_invalid reachable coll docs :
  (forall d, In d docs -> database.validates d = false) ->
  database.insertMany reachable coll docs = (coll, Some tt).
Proof.
  intros Hall. unfold database.insertMany. rewrite (filter_none _ _ Hall). reflexivity.
Qed.

(** ** A normal run that returns *)



(** ** After a failed send *)

Ltac in_log := vm_compute; repeat first [left; reflexivity | right].

(** C7, as the code has it.  The notices of a failed send are not always
    found again.  The run of [Sample.mail_down] calls [sendEmail] on two
    notices and fails, and nothing is recorded; a run two days later, on the
    same notices and with every collaborator answering, calls no [sendEmail]
    at all, the notices being older than the age limit by then. *)
Lemma failed_send_not_retried_after_window :
  resend_emails_send Sample.mail_down <> Delivered
  /\ In (sendEmail_ [Sample.holiday_again; Sample.exam_notice])
        (calls Scenario.after_failed_send)
  /\ fst (main Sample.mail_down (boot [] [])) = Exits 1
  /\ collection Scenario.after_failed_send = []
  /\ axios_get_NEWS (Sample.fine false (Sample.clock + 172800000))
     = axios_get_NEWS Sample.mail_down
  /\ axios_get_EXAM (Sample.fine false (Sample.clock + 172800000))
     = axios_get_EXAM Sample.mail_down
  /\ fst (main (Sample.fine false (Sample.clock + 172800000))
               (boot (collection Scenario.after_failed_send)
                     (outbox Scenario.after_failed_send))) = Returns tt
  /\ forall sent,
       ~ In (sendEmail_ sent)
            (calls (snd (main (Sample.fine false (Sample.clock + 172800000))
                              (boot (collection Scenario.after_failed_send)
                                    (outbox Scenario.after_failed_send))))).
Proof.
  split; [discriminate|].
  split; [in_log|].
  split; [vm_compute; reflexivity|].
  split; [vm_compute; reflexivity|].
  split; [reflexivity|]. split; [reflexivity|].
  split; [vm_compute; reflexivity|].
  intros sent Hin. vm_compute in Hin.
  repeat destruct Hin as [Hin|Hin]; try discriminate Hin. exact Hin.
Qed.

(** C7.  A failed send records nothing, and the next run mails the notices
    again while they are recent.  In every run that is not a seed run and
    whose send fails (the provider answers with an error, or the call is
    rejected), the store and the outbox are as before, [saveSentNotices] is
    not called, and once [sendEmail] has been called the process exits with
    status 1.  A next run of the program under the same environment and on
    the same upstream notices, whose connection and id query succeed, passes
    to [sendEmail] every notice of the failed list that is still within the
    age limit at its own clock (in test mode: every notice of the failed
    list). *)
Theorem failed_send_is_retried_while_recent (o : Outside) :
  resend_emails_send o <> Delivered ->
  (forall config self s,
     SEED_MODE config = false ->
     collection (snd (NoticeMonitor.run o config self s)) = collection s
     /\ outbox (snd (NoticeMonitor.run o config self s)) = outbox s
     /\ exists new,
          calls (snd (NoticeMonitor.run o config self s)) = calls s ++ new
          /\ (forall notices, ~ In (saveSentNotices_ notices) new)
          /\ (forall notices, In (sendEmail_ notices) new ->
                fst (NoticeMonitor.run o config self s) = Exits 1))
  /\ (forall o2 coll out sent n c uri,
        SEED_MODE (loadConfig (process_env o)) = false ->
        In (sendEmail_ sent) (calls (snd (main o (boot coll out)))) ->
        In n sent ->
        process_env o2 = process_env o ->
        axios_get_NEWS o2 = axios_get_NEWS o ->
        axios_get_EXAM o2 = axios_get_EXAM o ->
        MONGO_URI (loadConfig (process_env o2)) = Some (c :: uri) ->
        mongoose_connect o2 = true ->
        Notice_find o2 = true ->
        TEST_MODE (loadConfig (process_env o2)) = true
        \/ TimeFilterStrategy.check (Date_parse o2)
             (TimeFilterStrategy.new (loadConfig (process_env o2)) (Date_now o2)) n = true ->
        exists sent2,
          In (sendEmail_ sent2)
             (calls (snd (main o2 (boot (collection (snd (main o (boot coll out))))
                                        (outbox (snd (main o (boot coll out))))))))
          /\ In n sent2).
Proof.
  intros Hfail. split.
  - intros config self s Hseed. exact (failed_send_frame o config self s Hseed Hfail).
  - intros o2 coll out sent n c uri Hseed Hsent Hn Henv Hnews Hexam Huri Hconn Hfind Hstill.
    destruct (failed_send_frame o (loadConfig (process_env o))
                (monitor o (loadConfig (process_env o))) (boot coll out) Hseed Hfail)
      as (Hcoll & _ & _).
    fold (main o (boot coll out)) in Hcoll. cbn [boot collection] in Hcoll.
    destruct (TEST_MODE (loadConfig (process_env o))) eqn:Htest.
    + (* test mode: everything fetched is mailed again *)
      destruct (test_run_steps o coll out Htest Hseed) as (_ & _ & _ & Hwhat & _).
      destruct (Hwhat sent Hsent) as (nd & ed & Hnd & Hed & -> & _).
      assert (Hmerged : In n (mergeNotices nd ed))
        by (eapply Permutation_in; [apply sort_perm|exact Hn]).
      destruct (test_run_steps o2 (collection (snd (main o (boot coll out))))
                  (outbox (snd (main o (boot coll out)))))
        as (_ & _ & _ & _ & Hlive);
        [rewrite Henv; exact Htest|rewrite Henv; exact Hseed|].
      eexists. split.
      * apply (Hlive nd ed c uri Huri Hconn); [congruence|congruence|exact Hfind|].
        intros E. rewrite E in Hmerged. destruct Hmerged.
      * eapply Permutation_in; [symmetry; apply sort_perm|exact Hmerged].
    + (* normal mode: what is recent and unrecorded is mailed again *)
      destruct Hstill as [Htest2|Htime]; [rewrite Henv, Htest in Htest2; discriminate|].
      destruct (normal_run_sends o coll out sent Htest Hseed Hsent)
        as (nd & ed & Hnd & Hed & _ & Heq).
      rewrite Heq in Hn. apply filter_In in Hn as [Hn Hkeep].
      apply andb_true_iff in Hkeep as [_ Hnew]. apply negb_true_iff in Hnew.
      assert (Hmerged : In n (mergeNotices nd ed))
        by (eapply Permutation_in; [apply sort_perm|exact Hn]).
      rewrite Hcoll.
      assert (Hin2 : In n (List.filter
                 (fun n => TimeFilterStrategy.check (Date_parse o2)
                             (TimeFilterStrategy.new (loadConfig (process_env o2)) (Date_now o2)) n
                           && negb (recorded coll n))
                 (sort (byDate (Date_parse o2)) (mergeNotices nd ed)))).
      { apply filter_In. split.
        - eapply Permutation_in; [symmetry; apply sort_perm|exact Hmerged].
        - rewrite Htime, Hnew. reflexivity. }
      eexists. split; [|exact Hin2].
      apply (normal_run_reaches_send o2 coll _ nd ed c uri);
        [rewrite Henv; exact Htest|rewrite Henv; exact Hseed|exact Huri|exact Hconn
        |congruence|congruence|exact Hfind|].
      intros E. rewrite E in Hin2. destruct Hin2.
Qed.

Lemma failed_send_is_retried_while_recent_witness :
  collection Scenario.after_failed_send = []
  /\ exists sent2,
       In (sendEmail_ sent2)
          (calls (snd (main (Sample.fine false (Sample.clock + 3600000))
                            (boot (collection Scenario.after_failed_send)
                                  (outbox Scenario.after_failed_send)))))
       /\ In Sample.exam_notice sent2.
Proof.
  destruct (failed_send_is_retried_while_recent Sample.mail_down) as [Hframe Hnext];
    [discriminate|].
  split.
  - destruct (Hframe (loadConfig (process_env Sample.mail_down))
                (monitor Sample.mail_down (loadConfig (process_env Sample.mail_down)))
                (boot [] [])) as (Hcoll & _); [reflexivity|exact Hcoll].
  - apply (Hnext (Sample.fine false (Sample.clock + 3600000)) [] []
             [Sample.holiday_again; Sample.exam_notice] Sample.exam_notice
             109%N (lit "ongodb://localhost/notices")); try reflexivity.
    + in_log.
    + right. left. reflexivity.
    + right. vm_compute. reflexivity.
Defined.

(** ** Seed runs *)




(** ** Two runs in a row *)






